(** * Wide-and-deep feature columns of the structured-data trainer

    A shallow embedding of [trainer/featurizer.py]
    (training/tensorflow/structured/base) and the properties of the
    feature descriptors it assembles.

    The Python functions become Rocq functions with the same names.  A
    raised exception is a value of the error monad [Py.result]; a Python
    [dict] is an association list that keeps insertion order and has one
    entry per key, which is what the iteration order of the produced lists
    depends on. *)

From Stdlib Require Import String List ZArith QArith Bool Lia Permutation.
Import ListNotations.
Local Open Scope string_scope.
Local Open Scope Z_scope.
Local Open Scope list_scope.

(* ===================================================================== *)
(** ** Python values: exceptions and insertion-ordered dictionaries *)
(* ===================================================================== *)

Module Py.

Inductive exn : Type :=
| KeyError (key : string)
| ValueError (msg : string)
| OverflowError (msg : string).

Inductive result (A : Type) : Type :=
| Ok (a : A)
| Raise (e : exn).

Arguments Ok {A} a.
Arguments Raise {A} e.

Definition bind {A B : Type} (m : result A) (k : A -> result B) : result B :=
  match m with
  | Ok a => k a
  | Raise e => Raise e
  end.

(** [try: body  except KeyError: handler]. Any other exception escapes. *)
Definition try_except_KeyError {A : Type} (body handler : result A) : result A :=
  match body with
  | Raise (KeyError _) => handler
  | other => other
  end.

(** [for x in xs: s = body(s, x)], stopping at the first exception. *)
Fixpoint for_each {A S : Type} (xs : list A) (body : S -> A -> result S) (s : S)
  : result S :=
  match xs with
  | [] => Ok s
  | x :: xs' => bind (body s x) (for_each xs' body)
  end.

Section Dict.
Context {V : Type}.

Definition dict : Type := list (string * V).

Fixpoint get (k : string) (d : dict) : option V :=
  match d with
  | [] => None
  | (k', v) :: d' => if String.eqb k k' then Some v else get k d'
  end.

(** [d[k]] *)
Definition getitem (k : string) (d : dict) : result V :=
  match get k d with
  | Some v => Ok v
  | None => Raise (KeyError k)
  end.

(** [d[k] = v]: a key already present keeps its place, a new key goes
    last. *)
Fixpoint setitem (k : string) (v : V) (d : dict) : dict :=
  match d with
  | [] => [(k, v)]
  | (k', v') :: d' =>
      if String.eqb k k' then (k', v) :: d' else (k', v') :: setitem k v d'
  end.

(** The keys in iteration order: [for k in d]. *)
Definition keys (d : dict) : list string := map fst d.

Definition values (d : dict) : list V := map snd d.

End Dict.

Arguments dict V : clear implicits.

End Py.

Import Py.

Declare Scope py_scope.
Delimit Scope py_scope with py.
Notation "x <- m ;; k" := (Py.bind m (fun x => k))
  (at level 61, m at next level, right associativity) : py_scope.
Local Open Scope py_scope.

(* ===================================================================== *)
(** ** The metadata module *)
(* ===================================================================== *)

Module metadata.

(** Modelled from the spec: [trainer/metadata.py] is imported by the
    featurizer but is not among the sources.  The spec describes it as a
    static mapping from field name to its statistical or type
    configuration: mean and variance for numeric normalization,
    vocabulary lists, identity bucket counts and hash bucket sizes.  The
    statistics of one numeric field are a dictionary from the statistic's
    name (['mean'], ['var']) to its value. *)
Definition stats : Type := dict Q.

Record t : Type := {
  NUMERIC_FEATURE_NAMES_WITH_STATS : dict stats;
  CATEGORICAL_FEATURE_NAMES_WITH_IDENTITY : dict Z;
  CATEGORICAL_FEATURE_NAMES_WITH_VOCABULARY : dict (list string);
  CATEGORICAL_FEATURE_NAMES_WITH_HASH_BUCKET : dict Z
}.

End metadata.

(* ===================================================================== *)
(** ** The feature-column classes and constructors of TensorFlow *)
(* ===================================================================== *)

Module tf.

(** The closure [_z_score] of [_create_feature_columns], as a value: the
    two variables it captures.  They hold whatever the two dictionary
    look-ups of the enclosing function returned. *)
Inductive normalizer : Type :=
| z_score (mean variance : metadata.stats).

(** One constructor per class of [feature_column_v2] that the featurizer
    builds or tests with [isinstance].  None of these classes derives from
    another one of them, so [isinstance] is a test on the constructor. *)
Inductive column : Type :=
| NumericColumn (key : string) (normalizer_fn : option normalizer)
| IdentityCategoricalColumn (key : string) (num_buckets : Z)
| VocabularyListCategoricalColumn (key : string) (vocabulary_list : list string)
| HashedCategoricalColumn (key : string) (hash_bucket_size : Z)
| BucketizedColumn (source_column : column) (boundaries : list Z)
| CrossedColumn (keys : list string) (hash_bucket_size : Z)
| EmbeddingColumn (categorical_column : column) (dimension : Z)
| IndicatorColumn (categorical_column : column).

Definition isNumericColumn (c : column) : bool :=
  match c with NumericColumn _ _ => true | _ => false end.
Definition isIdentityCategoricalColumn (c : column) : bool :=
  match c with IdentityCategoricalColumn _ _ => true | _ => false end.
Definition isVocabularyListCategoricalColumn (c : column) : bool :=
  match c with VocabularyListCategoricalColumn _ _ => true | _ => false end.
Definition isHashedCategoricalColumn (c : column) : bool :=
  match c with HashedCategoricalColumn _ _ => true | _ => false end.
Definition isBucketizedColumn (c : column) : bool :=
  match c with BucketizedColumn _ _ => true | _ => false end.
Definition isCrossedColumn (c : column) : bool :=
  match c with CrossedColumn _ _ => true | _ => false end.
Definition isEmbeddingColumn (c : column) : bool :=
  match c with EmbeddingColumn _ _ => true | _ => false end.
Definition isIndicatorColumn (c : column) : bool :=
  match c with IndicatorColumn _ => true | _ => false end.

(** The abstract base class [CategoricalColumn]. *)
Definition isCategoricalColumn (c : column) : bool :=
  match c with
  | IdentityCategoricalColumn _ _ | VocabularyListCategoricalColumn _ _
  | HashedCategoricalColumn _ _ | BucketizedColumn _ _ | CrossedColumn _ _ => true
  | _ => false
  end.

Fixpoint strictly_increasing (l : list Z) : bool :=
  match l with
  | a :: ((b :: _) as l') => (a <? b) && strictly_increasing l'
  | _ => true
  end.

Fixpoint has_duplicates (l : list string) : bool :=
  match l with
  | [] => false
  | a :: l' => existsb (String.eqb a) l' || has_duplicates l'
  end.

(** The constructors, with the argument checks they perform when a
    column is built (each raises [ValueError]). *)

Definition numeric_column (key : string) (normalizer_fn : option normalizer)
  : column :=
  NumericColumn key normalizer_fn.

Definition categorical_column_with_identity (key : string) (num_buckets : Z)
  : result column :=
  if num_buckets <? 1
  then Raise (ValueError "num_buckets must be at least 1")
  else Ok (IdentityCategoricalColumn key num_buckets).

Definition categorical_column_with_vocabulary_list
    (key : string) (vocabulary_list : list string) : result column :=
  if (length vocabulary_list <? 1)%nat
  then Raise (ValueError "vocabulary_list must be non-empty")
  else if has_duplicates vocabulary_list
  then Raise (ValueError "Duplicate keys in vocabulary_list")
  else Ok (VocabularyListCategoricalColumn key vocabulary_list).

Definition categorical_column_with_hash_bucket
    (key : string) (hash_bucket_size : Z) : result column :=
  if hash_bucket_size <? 1
  then Raise (ValueError "hash_bucket_size must be at least 1")
  else Ok (HashedCategoricalColumn key hash_bucket_size).

Definition bucketized_column (source_column : column) (boundaries : list Z)
  : result column :=
  if negb (isNumericColumn source_column)
  then Raise (ValueError "source_column must be a numeric_column")
  else match boundaries with
       | [] => Raise (ValueError "boundaries must not be empty")
       | _ => if strictly_increasing boundaries
              then Ok (BucketizedColumn source_column boundaries)
              else Raise (ValueError "boundaries must be a sorted list")
       end.

Definition crossed_column (keys : list string) (hash_bucket_size : Z)
  : result column :=
  if hash_bucket_size <? 1
  then Raise (ValueError "hash_bucket_size must be > 1")
  else if (length keys <? 2)%nat
  then Raise (ValueError "keys must be a list with length > 1")
  else Ok (CrossedColumn keys hash_bucket_size).

Definition embedding_column (categorical_column : column) (dimension : Z)
  : result column :=
  if dimension <? 1
  then Raise (ValueError "Invalid dimension")
  else Ok (EmbeddingColumn categorical_column dimension).

Definition indicator_column (categorical_column : column) : result column :=
  if isCategoricalColumn categorical_column
  then Ok (IndicatorColumn categorical_column)
  else Raise (ValueError "Input must be a CategoricalColumn").

End tf.

Import tf.

(* ===================================================================== *)
(** ** The [math] module *)
(* ===================================================================== *)

Module math.

(** Python's [math.sqrt] and [math.ceil] work on IEEE-754 doubles.  The
    doubles met here are non-negative and are kept as exact integers: the
    value of [float(n)] is itself an integer, and the value of a square
    root is kept multiplied by [2^55], which is again an integer because
    a double of magnitude at least one has at most 52 bits after the
    binary point. *)

(** Rounding of the positive number [x] (plus a fraction below one when
    [sticky] is set) to 53 significant bits, to nearest, ties to even. *)
Definition round_half_even_53 (x : Z) (sticky : bool) : Z :=
  let shift := Z.log2 x + 1 - 53 in
  if shift <=? 0 then x
  else
    let q := x / 2 ^ shift in
    let rem := x mod 2 ^ shift in
    let half := 2 ^ (shift - 1) in
    let up := (half <? rem) || ((rem =? half) && (sticky || Z.odd q)) in
    (if up then q + 1 else q) * 2 ^ shift.

(** [float(n)] for an integer [n]: correctly rounded, [OverflowError]
    when the rounded value does not fit a double. *)
Definition float_of_int (n : Z) : result Z :=
  let v := round_half_even_53 (Z.abs n) false in
  if 2 ^ 1024 <=? v
  then Raise (OverflowError "int too large to convert to float")
  else Ok (Z.sgn n * v).

(** The correctly rounded square root of the double [v >= 0], times
    [2^55]: the integer square root of [v * 2^110] carries 55 bits after
    the binary point, and whether it is exact decides the ties. *)
Definition sqrt_scaled (v : Z) : Z :=
  let X := v * 2 ^ 110 in
  let S := Z.sqrt X in
  round_half_even_53 S (negb (S * S =? X)).

(** [math.sqrt(n)] for an integer [n], the result times [2^55]. *)
Definition sqrt (n : Z) : result Z :=
  x <- float_of_int n ;;
  if x <? 0 then Raise (ValueError "math domain error")
  else Ok (sqrt_scaled x).

(** [math.ceil(y)] for a double [y >= 0] given times [2^55]: an exact
    integer. *)
Definition ceil (y : Z) : Z := (y + 2 ^ 55 - 1) / 2 ^ 55.

(** [math.ceil(math.sqrt(n))] for an integer [n]. *)
Definition ceil_sqrt (n : Z) : result Z :=
  y <- sqrt n ;;
  Ok (ceil y).

(** The ceiling of the real square root: the least [d] with
    [n <= d * d].  The double-precision value above agrees with it below
    [2^52] and not always beyond. *)
Definition ceil_sqrt_exact (n : Z) : Z :=
  let r := Z.sqrt n in if r * r =? n then r else r + 1.

End math.

(* ===================================================================== *)
(** ** trainer/featurizer.py *)
(* ===================================================================== *)

(** [args], the experiment parameters: the three flags the featurizer
    reads. *)
Record Args : Type := {
  embed_categorical_columns : bool;
  use_indicator_columns : bool;
  use_wide_columns : bool
}.

(** The two branches of the loop of [_extend_feature_columns] that embed a
    categorical column and turn it into an indicator. *)
Definition append_embedding (args : Args) (column : tf.column) (vocab_size : Z)
    (extended_feature_columns : list tf.column) : result (list tf.column) :=
  if embed_categorical_columns args then
    dimension <- math.ceil_sqrt vocab_size ;;
    e <- embedding_column column dimension ;;
    Ok (extended_feature_columns ++ [e])
  else Ok extended_feature_columns.

Definition append_indicator (args : Args) (column : tf.column)
    (extended_feature_columns : list tf.column) : result (list tf.column) :=
  if use_indicator_columns args then
    i <- indicator_column column ;;
    Ok (extended_feature_columns ++ [i])
  else Ok extended_feature_columns.

(** The body of [for column_name in feature_columns]. *)
Definition extend_body (feature_columns : dict tf.column) (args : Args)
    (extended_feature_columns : list tf.column) (column_name : string)
  : result (list tf.column) :=
  column <- getitem column_name feature_columns ;;
  ext1 <- match column with
          | VocabularyListCategoricalColumn _ vocabulary_list =>
              ext <- append_embedding args column
                       (Z.of_nat (length vocabulary_list))
                       extended_feature_columns ;;
              append_indicator args column ext
          | _ => Ok extended_feature_columns
          end ;;
  ext2 <- match column with
          | IdentityCategoricalColumn _ num_buckets =>
              ext <- append_embedding args column num_buckets ext1 ;;
              append_indicator args column ext
          | _ => Ok ext1
          end ;;
  ext3 <- match column with
          | HashedCategoricalColumn _ _ => append_indicator args column ext2
          | _ => Ok ext2
          end ;;
  if isNumericColumn column then Ok (ext3 ++ [column])
  else if use_wide_columns args then Ok (ext3 ++ [column])
  else Ok ext3.

(** [_extend_feature_columns(feature_columns, args)].  The four
    descriptors built before the loop start the list; a missing key
    raises [KeyError] and a rejected constructor argument [ValueError]. *)
Definition _extend_feature_columns (feature_columns : dict tf.column)
    (args : Args) : result (list tf.column) :=
  trip_miles <- getitem "trip_miles" feature_columns ;;
  trip_miles_buckets <-
    bucketized_column trip_miles [5; 10; 15; 20; 25; 30; 35; 40; 45; 50] ;;
  trip_seconds <- getitem "trip_seconds" feature_columns ;;
  trip_seconds_buckets <-
    bucketized_column trip_seconds [900; 1800; 2700; 3600] ;;
  trip_miles_x_trip_seconds <-
    crossed_column ["trip_miles"; "trip_seconds"] 10000 ;;
  company <- getitem "company" feature_columns ;;
  company_embedded <- embedding_column company 10 ;;
  let extended_feature_columns :=
    [trip_miles_buckets; trip_seconds_buckets; trip_miles_x_trip_seconds;
     company_embedded] in
  for_each (keys feature_columns) (extend_body feature_columns args)
    extended_feature_columns.

(** The [try] block of the numeric loop.  Both look-ups index the stats
    table itself with the literal keys ['mean'] and ['var']; a missing key
    raises [KeyError], which the handler turns into [None]. *)
Definition numeric_normalizer_fn (md : metadata.t) : result (option normalizer) :=
  try_except_KeyError
    (mean <- getitem "mean" (metadata.NUMERIC_FEATURE_NAMES_WITH_STATS md) ;;
     variance <- getitem "var" (metadata.NUMERIC_FEATURE_NAMES_WITH_STATS md) ;;
     Ok (Some (z_score mean variance)))
    (Ok None).

(** [_create_feature_columns()].  The module [metadata] it reads is the
    argument [md].  The four loops write into one dictionary, so a name
    that occurs in two tables keeps its first place and its last column. *)
Definition _create_feature_columns (md : metadata.t) : result (dict tf.column) :=
  let feature_columns : dict tf.column := [] in
  (* Add numeric features *)
  feature_columns <-
    for_each (keys (metadata.NUMERIC_FEATURE_NAMES_WITH_STATS md))
      (fun feature_columns feature_name =>
         normalizer_fn <- numeric_normalizer_fn md ;;
         Ok (setitem feature_name (numeric_column feature_name normalizer_fn)
               feature_columns))
      feature_columns ;;
  (* Add categorical columns with identity *)
  feature_columns <-
    for_each (keys (metadata.CATEGORICAL_FEATURE_NAMES_WITH_IDENTITY md))
      (fun feature_columns feature_name =>
         num_buckets <-
           getitem feature_name (metadata.CATEGORICAL_FEATURE_NAMES_WITH_IDENTITY md) ;;
         c <- categorical_column_with_identity feature_name num_buckets ;;
         Ok (setitem feature_name c feature_columns))
      feature_columns ;;
  (* Add categorical columns with vocabulary *)
  feature_columns <-
    for_each (keys (metadata.CATEGORICAL_FEATURE_NAMES_WITH_VOCABULARY md))
      (fun feature_columns feature_name =>
         vocabulary_list <-
           getitem feature_name (metadata.CATEGORICAL_FEATURE_NAMES_WITH_VOCABULARY md) ;;
         c <- categorical_column_with_vocabulary_list feature_name vocabulary_list ;;
         Ok (setitem feature_name c feature_columns))
      feature_columns ;;
  (* Add categorical columns with hash bucket *)
  for_each (keys (metadata.CATEGORICAL_FEATURE_NAMES_WITH_HASH_BUCKET md))
    (fun feature_columns feature_name =>
       hash_bucket_size <-
         getitem feature_name (metadata.CATEGORICAL_FEATURE_NAMES_WITH_HASH_BUCKET md) ;;
       c <- categorical_column_with_hash_bucket feature_name hash_bucket_size ;;
       Ok (setitem feature_name c feature_columns))
    feature_columns.

(** The two [isinstance] tests of [_get_sparse_and_dense_columns]. *)
Definition is_dense (column : tf.column) : bool :=
  isNumericColumn column || isEmbeddingColumn column || isIndicatorColumn column.

Definition is_sparse (column : tf.column) : bool :=
  isVocabularyListCategoricalColumn column
  || isIdentityCategoricalColumn column
  || isBucketizedColumn column
  || isCrossedColumn column.

(** [_get_sparse_and_dense_columns(feature_columns)]: two list
    comprehensions over the same list, returned sparse first. *)
Definition _get_sparse_and_dense_columns (feature_columns : list tf.column)
  : list tf.column * list tf.column :=
  let dense_columns := filter is_dense feature_columns in
  let sparse_columns := filter is_sparse feature_columns in
  (sparse_columns, dense_columns).

(** [create_wide_and_deep_columns(args)]. *)
Definition create_wide_and_deep_columns (md : metadata.t) (args : Args)
  : result (list tf.column * list tf.column) :=
  (* Create Base feature columns *)
  feature_columns <- _create_feature_columns md ;;
  (* Extend Feature columns *)
  feature_columns <- _extend_feature_columns feature_columns args ;;
  (* Separate sparse from dense columns *)
  let '(wide_columns, deep_columns) :=
    _get_sparse_and_dense_columns feature_columns in
  Ok (wide_columns, deep_columns).

(* ===================================================================== *)
(** ** A sample metadata table *)
(* ===================================================================== *)

Definition mkArgs (embed indicator wide : bool) : Args :=
  {| embed_categorical_columns := embed;
     use_indicator_columns := indicator;
     use_wide_columns := wide |}.

Definition taxi_stats : dict metadata.stats :=
  [("trip_miles", [("mean", 3 # 1); ("var", 4 # 1)]);
   ("trip_seconds", [("mean", 800 # 1); ("var", 900 # 1)])]%Q.

Definition taxi : metadata.t :=
  {| metadata.NUMERIC_FEATURE_NAMES_WITH_STATS := taxi_stats;
     metadata.CATEGORICAL_FEATURE_NAMES_WITH_IDENTITY := [("trip_start_hour", 24)];
     metadata.CATEGORICAL_FEATURE_NAMES_WITH_VOCABULARY :=
       [("payment_type", ["Cash"; "Credit Card"; "Unknown"])];
     metadata.CATEGORICAL_FEATURE_NAMES_WITH_HASH_BUCKET := [("company", 1000)] |}.

(** The base dictionary [_create_feature_columns] builds from it. *)
Definition taxi_feature_columns : dict tf.column :=
  [("trip_miles", NumericColumn "trip_miles" None);
   ("trip_seconds", NumericColumn "trip_seconds" None);
   ("trip_start_hour", IdentityCategoricalColumn "trip_start_hour" 24);
   ("payment_type",
    VocabularyListCategoricalColumn "payment_type"
      ["Cash"; "Credit Card"; "Unknown"]);
   ("company", HashedCategoricalColumn "company" 1000)].

(* ===================================================================== *)
(** ** Base descriptors and the loop, turn by turn *)
(* ===================================================================== *)

(** What [_create_feature_columns] stores under the name [k]: one of the
    four base descriptors, keyed by [k], with the size its constructor
    accepted. *)
Inductive base_column (k : string) : tf.column -> Prop :=
| base_numeric nf : base_column k (NumericColumn k nf)
| base_identity n : 1 <= n -> base_column k (IdentityCategoricalColumn k n)
| base_vocabulary l :
    (1 <= length l)%nat -> base_column k (VocabularyListCategoricalColumn k l)
| base_hashed n : 1 <= n -> base_column k (HashedCategoricalColumn k n).

Definition base_dict (fc : dict tf.column) : Prop :=
  NoDup (keys fc) /\ forall k c, In (k, c) fc -> base_column k c.

(** Metadata whose entries the column constructors accept: bucket counts
    and hash bucket sizes of at least one, vocabularies that are not empty
    and hold no duplicate. *)
Definition valid_metadata (md : metadata.t) : Prop :=
  (forall n, In n (values (metadata.CATEGORICAL_FEATURE_NAMES_WITH_IDENTITY md)) ->
             1 <= n) /\
  (forall l, In l (values (metadata.CATEGORICAL_FEATURE_NAMES_WITH_VOCABULARY md)) ->
             (1 <= length l)%nat /\ has_duplicates l = false) /\
  (forall n, In n (values (metadata.CATEGORICAL_FEATURE_NAMES_WITH_HASH_BUCKET md)) ->
             1 <= n).

(** The embedding the loop builds over [c] for the size [s], when
    [math.ceil(math.sqrt(s))] returns. *)
Definition loop_embedding (c : tf.column) (s : Z) : list tf.column :=
  match math.ceil_sqrt s with
  | Ok dimension => [EmbeddingColumn c dimension]
  | Raise _ => []
  end.

Definition embedding_part (args : Args) (c : tf.column) (s : Z) : list tf.column :=
  if embed_categorical_columns args then loop_embedding c s else [].

(** The embedding step of the loop raises nothing for the size [s]: the
    flag is off, or the dimension is computed and is at least one. *)
Definition embeds (args : Args) (s : Z) : Prop :=
  embed_categorical_columns args = true ->
  exists dimension, math.ceil_sqrt s = Ok dimension /\ 1 <= dimension.

Definition column_embeds (args : Args) (c : tf.column) : Prop :=
  match c with
  | VocabularyListCategoricalColumn _ l => embeds args (Z.of_nat (length l))
  | IdentityCategoricalColumn _ n => embeds args n
  | _ => True
  end.

Definition indicator_part (args : Args) (c : tf.column) : list tf.column :=
  if use_indicator_columns args then [IndicatorColumn c] else [].

Definition pass_through (args : Args) (c : tf.column) : list tf.column :=
  if isNumericColumn c || use_wide_columns args then [c] else [].

(** The descriptors derived from the column [c] in one turn of the loop. *)
Definition derived_part (args : Args) (c : tf.column) : list tf.column :=
  match c with
  | VocabularyListCategoricalColumn _ l =>
      embedding_part args c (Z.of_nat (length l)) ++ indicator_part args c
  | IdentityCategoricalColumn _ n =>
      embedding_part args c n ++ indicator_part args c
  | HashedCategoricalColumn _ _ => indicator_part args c
  | _ => []
  end.

(** All the descriptors appended for the column [c], in order. *)
Definition contribution (args : Args) (c : tf.column) : list tf.column :=
  derived_part args c ++ pass_through args c.

(** The columns the loop visits: the values found under the keys [ks]. *)
Definition visited (fc : dict tf.column) (ks : list string) (cs : list tf.column)
  : Prop :=
  map (fun k => get k fc) ks = map Some cs.

(** The four descriptors built before the loop. *)
Definition fixed_columns (trip_miles trip_seconds company : tf.column)
  : list tf.column :=
  [BucketizedColumn trip_miles [5; 10; 15; 20; 25; 30; 35; 40; 45; 50];
   BucketizedColumn trip_seconds [900; 1800; 2700; 3600];
   CrossedColumn ["trip_miles"; "trip_seconds"] 10000;
   EmbeddingColumn company 10].

(* ===================================================================== *)
(** ** Kinds of descriptors, flag updates and the shape of the two lists *)
(* ===================================================================== *)

Inductive kind : Type :=
| numeric | categorical_identity | categorical_vocabulary | categorical_hashed
| bucketized | crossed | embedding | indicator.

Definition kind_of (c : tf.column) : kind :=
  match c with
  | NumericColumn _ _ => numeric
  | IdentityCategoricalColumn _ _ => categorical_identity
  | VocabularyListCategoricalColumn _ _ => categorical_vocabulary
  | HashedCategoricalColumn _ _ => categorical_hashed
  | BucketizedColumn _ _ => bucketized
  | CrossedColumn _ _ => crossed
  | EmbeddingColumn _ _ => embedding
  | IndicatorColumn _ => indicator
  end.

(** A categorical base descriptor: identity, vocabulary or hashed. *)
Definition categorical_base (c : tf.column) : Prop :=
  kind_of c = categorical_identity \/ kind_of c = categorical_vocabulary
  \/ kind_of c = categorical_hashed.

Definition with_use_wide_columns (b : bool) (args : Args) : Args :=
  {| embed_categorical_columns := embed_categorical_columns args;
     use_indicator_columns := use_indicator_columns args;
     use_wide_columns := b |}.

Definition with_embed_categorical_columns (b : bool) (args : Args) : Args :=
  {| embed_categorical_columns := b;
     use_indicator_columns := use_indicator_columns args;
     use_wide_columns := use_wide_columns args |}.

Definition identity_or_vocabulary (c : tf.column) : bool :=
  isVocabularyListCategoricalColumn c || isIdentityCategoricalColumn c.

Definition bucketized_or_crossed (c : tf.column) : bool :=
  isBucketizedColumn c || isCrossedColumn c.

(** The wide list, given the base dictionary and the two columns found
    under ['trip_miles'] and ['trip_seconds']. *)
Definition wide_of (fc : dict tf.column) (tm ts : tf.column) (args : Args)
  : list tf.column :=
  [BucketizedColumn tm [5; 10; 15; 20; 25; 30; 35; 40; 45; 50];
   BucketizedColumn ts [900; 1800; 2700; 3600];
   CrossedColumn ["trip_miles"; "trip_seconds"] 10000]
  ++ (if use_wide_columns args
      then filter identity_or_vocabulary (values fc) else []).

(** The deep list, given the base dictionary and the column found under
    ['company']. *)
Definition deep_of (fc : dict tf.column) (co : tf.column) (args : Args)
  : list tf.column :=
  EmbeddingColumn co 10
  :: flat_map (fun c => derived_part args c
                        ++ (if isNumericColumn c then [c] else []))
       (values fc).

(* ===================================================================== *)
(** ** The statements that are checked against the code as written *)
(* ===================================================================== *)

(** C3 as the specification states it: the descriptors that leave the
    wide list when [use_wide_columns] goes from true to false are
    categorical pass-through descriptors, and every bucketized, crossed,
    identity-categorical and vocabulary-categorical descriptor of the wide
    list stays. *)
Definition C3_claim (md : metadata.t) (args : Args) : Prop :=
  forall w1 d1 w0 d0,
    create_wide_and_deep_columns md (with_use_wide_columns true args)
    = Ok (w1, d1) ->
    create_wide_and_deep_columns md (with_use_wide_columns false args)
    = Ok (w0, d0) ->
    (forall c, In c w1 -> ~ In c w0 -> categorical_base c)
    /\
    (forall c, In c w1 ->
               kind_of c = bucketized \/ kind_of c = crossed
               \/ kind_of c = categorical_identity
               \/ kind_of c = categorical_vocabulary ->
               In c w0).

(** The column a derived descriptor is built over. *)
Definition source_column_of (d : tf.column) : option tf.column :=
  match d with
  | BucketizedColumn c _ | EmbeddingColumn c _ | IndicatorColumn c => Some c
  | _ => None
  end.

Definition derived_from_hashed (d : tf.column) : Prop :=
  exists c, source_column_of d = Some c /\ kind_of c = categorical_hashed.

(** C10 as stated: no hashed-categorical descriptor is in either list, and
    a descriptor of the deep list that is built over a hashed-categorical
    one is an indicator, present only under [use_indicator_columns]. *)
Definition C10_claim (md : metadata.t) (args : Args) : Prop :=
  forall wide deep,
    create_wide_and_deep_columns md args = Ok (wide, deep) ->
    (forall c, kind_of c = categorical_hashed -> ~ In c wide /\ ~ In c deep)
    /\
    (forall d, In d deep -> derived_from_hashed d ->
               kind_of d = indicator /\ use_indicator_columns args = true).

(** The flag a derived descriptor would be gated by.  The specification
    names none for the bucketized and crossed descriptors, so any of the
    three is accepted for them. *)
Definition gated (args : Args) (c : tf.column) : Prop :=
  match kind_of c with
  | embedding => embed_categorical_columns args = true
  | indicator => use_indicator_columns args = true
  | bucketized | crossed =>
      embed_categorical_columns args = true
      \/ use_indicator_columns args = true \/ use_wide_columns args = true
  | _ => True
  end.

(** C5 as stated: a derived descriptor is in the extended list only when
    its controlling flag is enabled. *)
Definition C5_claim (md : metadata.t) : Prop :=
  forall args fc extended,
    _create_feature_columns md = Ok fc ->
    _extend_feature_columns fc args = Ok extended ->
    forall c, In c extended -> gated args c.

(** The vocabulary size or bucket count of a categorical base descriptor. *)
Definition vocabulary_or_bucket_size (c : tf.column) : Z :=
  match c with
  | VocabularyListCategoricalColumn _ l => Z.of_nat (length l)
  | IdentityCategoricalColumn _ n => n
  | HashedCategoricalColumn _ n => n
  | _ => 0
  end.

(** The embedding of [c] whose dimension is the value of
    [math.ceil(math.sqrt(s))] for the size [s] of [c]. *)
Definition embedding_of (c : tf.column) : tf.column :=
  EmbeddingColumn c
    match math.ceil_sqrt (vocabulary_or_bucket_size c) with
    | Ok dimension => dimension
    | Raise _ => 0
    end.

Definition is_categorical_base (c : tf.column) : bool :=
  isIdentityCategoricalColumn c || isVocabularyListCategoricalColumn c
  || isHashedCategoricalColumn c.

(** C4 as stated: with [embed_categorical_columns] on, the extended list
    holds, beyond what it holds with the flag off, one embedding of
    dimension [ceil(sqrt(s))] for each categorical field, identity,
    vocabulary and hashed alike. *)
Definition C4_claim (md : metadata.t) (args : Args) : Prop :=
  forall fc ext0 ext1,
    _create_feature_columns md = Ok fc ->
    _extend_feature_columns fc (with_embed_categorical_columns false args)
    = Ok ext0 ->
    _extend_feature_columns fc (with_embed_categorical_columns true args)
    = Ok ext1 ->
    Permutation ext1
      (ext0 ++ map embedding_of (filter is_categorical_base (values fc))).

(** The normalizer as documented: the mean and the variance of the field
    itself when the metadata holds both, none otherwise. *)
Definition documented_normalizer (md : metadata.t) (feature_name : string)
  : option (Q * Q) :=
  match get feature_name (metadata.NUMERIC_FEATURE_NAMES_WITH_STATS md) with
  | Some field_stats =>
      match get "mean" field_stats, get "var" field_stats with
      | Some mean, Some variance => Some (mean, variance)
      | _, _ => None
      end
  | None => None
  end.

(* ===================================================================== *)
(** ** The four loops of [_create_feature_columns], one column at a time *)
(* ===================================================================== *)

(** The column each loop builds for one name, and the assignment
    [feature_columns[feature_name] = column] that stores it. *)
Definition make_numeric (md : metadata.t) (feature_name : string)
  : result tf.column :=
  normalizer_fn <- numeric_normalizer_fn md ;;
  Ok (numeric_column feature_name normalizer_fn).

Definition make_identity (md : metadata.t) (feature_name : string)
  : result tf.column :=
  num_buckets <-
    getitem feature_name (metadata.CATEGORICAL_FEATURE_NAMES_WITH_IDENTITY md) ;;
  categorical_column_with_identity feature_name num_buckets.

Definition make_vocabulary (md : metadata.t) (feature_name : string)
  : result tf.column :=
  vocabulary_list <-
    getitem feature_name (metadata.CATEGORICAL_FEATURE_NAMES_WITH_VOCABULARY md) ;;
  categorical_column_with_vocabulary_list feature_name vocabulary_list.

Definition make_hashed (md : metadata.t) (feature_name : string)
  : result tf.column :=
  hash_bucket_size <-
    getitem feature_name (metadata.CATEGORICAL_FEATURE_NAMES_WITH_HASH_BUCKET md) ;;
  categorical_column_with_hash_bucket feature_name hash_bucket_size.

Definition store (mk : string -> result tf.column)
    (feature_columns : dict tf.column) (feature_name : string)
  : result (dict tf.column) :=
  c <- mk feature_name ;;
  Ok (setitem feature_name c feature_columns).

(** The normalizer every numeric descriptor gets. *)
Definition shared_normalizer (md : metadata.t) : option normalizer :=
  match get "mean" (metadata.NUMERIC_FEATURE_NAMES_WITH_STATS md),
        get "var" (metadata.NUMERIC_FEATURE_NAMES_WITH_STATS md) with
  | Some mean, Some variance => Some (z_score mean variance)
  | _, _ => None
  end.

(** The entries each table contributes when no name is listed twice. *)
Definition numeric_entries (md : metadata.t) : dict tf.column :=
  map (fun kv => (fst kv, NumericColumn (fst kv) (shared_normalizer md)))
    (metadata.NUMERIC_FEATURE_NAMES_WITH_STATS md).

Definition identity_entries (md : metadata.t) : dict tf.column :=
  map (fun kv => (fst kv, IdentityCategoricalColumn (fst kv) (snd kv)))
    (metadata.CATEGORICAL_FEATURE_NAMES_WITH_IDENTITY md).

Definition vocabulary_entries (md : metadata.t) : dict tf.column :=
  map (fun kv => (fst kv, VocabularyListCategoricalColumn (fst kv) (snd kv)))
    (metadata.CATEGORICAL_FEATURE_NAMES_WITH_VOCABULARY md).

Definition hashed_entries (md : metadata.t) : dict tf.column :=
  map (fun kv => (fst kv, HashedCategoricalColumn (fst kv) (snd kv)))
    (metadata.CATEGORICAL_FEATURE_NAMES_WITH_HASH_BUCKET md).

(** All the field names of the metadata, table after table. *)
Definition field_names (md : metadata.t) : list string :=
  keys (metadata.NUMERIC_FEATURE_NAMES_WITH_STATS md)
  ++ keys (metadata.CATEGORICAL_FEATURE_NAMES_WITH_IDENTITY md)
  ++ keys (metadata.CATEGORICAL_FEATURE_NAMES_WITH_VOCABULARY md)
  ++ keys (metadata.CATEGORICAL_FEATURE_NAMES_WITH_HASH_BUCKET md).

Definition with_use_indicator_columns (b : bool) (args : Args) : Args :=
  {| embed_categorical_columns := embed_categorical_columns args;
     use_indicator_columns := b;
     use_wide_columns := use_wide_columns args |}.

(** A table in which ['fare'] is listed as a numeric field and as a hash
    bucket field. *)
Definition overlapping : metadata.t :=
  {| metadata.NUMERIC_FEATURE_NAMES_WITH_STATS := [("fare", []); ("tips", [])];
     metadata.CATEGORICAL_FEATURE_NAMES_WITH_IDENTITY := [];
     metadata.CATEGORICAL_FEATURE_NAMES_WITH_VOCABULARY := [];
     metadata.CATEGORICAL_FEATURE_NAMES_WITH_HASH_BUCKET := [("fare", 10)] |}.

(** A field listed in the numeric table and in no other table. *)
Definition numeric_only (md : metadata.t) (name : string) : Prop :=
  In name (keys (metadata.NUMERIC_FEATURE_NAMES_WITH_STATS md)) /\
  ~ In name (keys (metadata.CATEGORICAL_FEATURE_NAMES_WITH_IDENTITY md)) /\
  ~ In name (keys (metadata.CATEGORICAL_FEATURE_NAMES_WITH_VOCABULARY md)) /\
  ~ In name (keys (metadata.CATEGORICAL_FEATURE_NAMES_WITH_HASH_BUCKET md)).

(** The names of a list in the order of their first occurrence. *)
Definition add_name (seen : list string) (name : string) : list string :=
  if existsb (String.eqb name) seen then seen else seen ++ [name].

Definition first_occurrences (names : list string) : list string :=
  fold_left add_name names [].

(** The key a base column is built with. *)
Definition column_key (c : tf.column) : string :=
  match c with
  | NumericColumn k _ | IdentityCategoricalColumn k _
  | VocabularyListCategoricalColumn k _ | HashedCategoricalColumn k _ => k
  | _ => ""
  end.

(** Metadata whose identity bucket counts and vocabulary sizes are below
    [2^52], the range in which a double holds every integer and the
    double-precision square root has the exact ceiling. *)
Definition sizes_below_2_52 (md : metadata.t) : Prop :=
  (forall n, In n (values (metadata.CATEGORICAL_FEATURE_NAMES_WITH_IDENTITY md)) ->
             n < 2 ^ 52) /\
  (forall l, In l (values (metadata.CATEGORICAL_FEATURE_NAMES_WITH_VOCABULARY md)) ->
             Z.of_nat (length l) < 2 ^ 52).


(* ===================================================================== *)
(** ** The error monad and the dictionaries *)
(* ===================================================================== *)

Lemma bind_Ok {A B : Type} (m : result A) (k : A -> result B) (b : B) :
  Py.bind m k = Ok b -> exists a, m = Ok a /\ k a = Ok b.
Proof.
  destruct m as [a | e]; simpl; intros H; [eauto | discriminate].
Qed.

(** Splits a hypothesis [x <- m ;; k = Ok b] into its two steps. *)
Tactic Notation "inv_bind" hyp(H) :=
  let a := fresh "a" in
  let Ha := fresh "Ha" in
  apply bind_Ok in H; destruct H as (a & Ha & H).

Tactic Notation "inv_bind" hyp(H) "as" ident(a) ident(Ha) :=
  apply bind_Ok in H; destruct H as (a & Ha & H).

Ltac inv_Ok H := injection H as H; subst.

Section DictFacts.
Context {V : Type}.
Implicit Types (d : dict V) (k : string) (v : V).

Lemma get_In k v d : get k d = Some v -> In (k, v) d.
Proof.
  induction d as [| [k' v'] d IH]; simpl; [discriminate |].
  destruct (String.eqb_spec k k') as [-> | Hne]; intros H.
  - injection H as ->. now left.
  - right. auto.
Qed.

Lemma get_In_keys k v d : get k d = Some v -> In k (keys d).
Proof.
  intros H. apply get_In in H. apply (in_map fst) in H. exact H.
Qed.

Lemma In_get k v d : NoDup (keys d) -> In (k, v) d -> get k d = Some v.
Proof.
  induction d as [| [k' v'] d IH]; simpl; intros Hnd Hin; [contradiction |].
  inversion Hnd as [| ? ? Hnotin Hnd']; subst.
  destruct Hin as [Heq | Hin].
  - injection Heq as -> ->. now rewrite String.eqb_refl.
  - destruct (String.eqb_spec k k') as [-> | Hne]; [| auto].
    exfalso. apply Hnotin. apply (in_map fst) in Hin. exact Hin.
Qed.

Lemma getitem_Ok k v d : getitem k d = Ok v <-> get k d = Some v.
Proof.
  unfold getitem. destruct (get k d); split; intros H;
    try discriminate; congruence.
Qed.

Lemma keys_setitem k v d :
  keys (setitem k v d) = if existsb (String.eqb k) (keys d) then keys d
                         else keys d ++ [k].
Proof.
  unfold keys.
  induction d as [| [k' v'] d IH]; simpl; [reflexivity |].
  destruct (String.eqb_spec k k') as [-> | Hne]; simpl; [reflexivity |].
  rewrite IH. now destruct (existsb (String.eqb k) (map fst d)).
Qed.

Lemma existsb_eqb_false k (l : list string) :
  existsb (String.eqb k) l = false -> ~ In k l.
Proof.
  intros H Hin.
  assert (existsb (String.eqb k) l = true) as Ht
    by (apply existsb_exists; exists k; split; [exact Hin | apply String.eqb_refl]).
  congruence.
Qed.

Lemma NoDup_keys_setitem k v d : NoDup (keys d) -> NoDup (keys (setitem k v d)).
Proof.
  intros Hnd. rewrite keys_setitem.
  destruct (existsb (String.eqb k) (keys d)) eqn:E; [exact Hnd |].
  apply NoDup_app; [exact Hnd | constructor; [intros [] | constructor] |].
  intros x Hx [<- | []]. now apply existsb_eqb_false in E.
Qed.

Lemma In_setitem k v d kv :
  In kv (setitem k v d) -> kv = (fst kv, v) /\ fst kv = k \/ In kv d.
Proof.
  induction d as [| [k' v'] d IH]; simpl.
  - intros [<- | []]. now left.
  - destruct (String.eqb_spec k k') as [-> | Hne]; simpl.
    + intros [<- | H]; [now left | right; now right].
    + intros [<- | H]; [right; now left |].
      destruct (IH H) as [Hl | Hr]; [now left | right; now right].
Qed.

End DictFacts.

Lemma for_each_invariant {A S : Type} (P : S -> Prop)
    (body : S -> A -> result S) (xs : list A) :
  (forall s x s', P s -> body s x = Ok s' -> P s') ->
  forall s s', P s -> for_each xs body s = Ok s' -> P s'.
Proof.
  intros Hstep. induction xs as [| x xs IH]; simpl; intros s s' Hs H.
  - now inv_Ok H.
  - inv_bind H. eauto.
Qed.

(* ===================================================================== *)
(** ** The base descriptors built from the metadata *)
(* ===================================================================== *)

Lemma base_dict_nil : base_dict [].
Proof. split; [constructor | intros k c []]. Qed.

Lemma base_dict_setitem k c fc :
  base_dict fc -> base_column k c -> base_dict (setitem k c fc).
Proof.
  intros [Hnd Hall] Hc. split; [now apply NoDup_keys_setitem |].
  intros k' c' Hin. apply In_setitem in Hin. simpl in Hin.
  destruct Hin as [[Heq ->] | Hin]; [| auto].
  injection Heq as ->. exact Hc.
Qed.

Lemma categorical_column_with_identity_Ok k n c :
  categorical_column_with_identity k n = Ok c ->
  c = IdentityCategoricalColumn k n /\ 1 <= n.
Proof.
  unfold categorical_column_with_identity.
  destruct (Z.ltb_spec n 1) as [Hlt | Hge]; intros H;
    [discriminate | inv_Ok H; auto].
Qed.

Lemma categorical_column_with_vocabulary_list_Ok k l c :
  categorical_column_with_vocabulary_list k l = Ok c ->
  c = VocabularyListCategoricalColumn k l /\ (1 <= length l)%nat.
Proof.
  unfold categorical_column_with_vocabulary_list.
  destruct (Nat.ltb_spec (length l) 1) as [Hlt | Hge]; [discriminate |].
  destruct (has_duplicates l); intros H; [discriminate | inv_Ok H; auto].
Qed.

Lemma categorical_column_with_hash_bucket_Ok k n c :
  categorical_column_with_hash_bucket k n = Ok c ->
  c = HashedCategoricalColumn k n /\ 1 <= n.
Proof.
  unfold categorical_column_with_hash_bucket.
  destruct (Z.ltb_spec n 1) as [Hlt | Hge]; intros H;
    [discriminate | inv_Ok H; auto].
Qed.

(** Every entry of the dictionary returned by [_create_feature_columns]
    is a base descriptor stored under its own key, and no key occurs
    twice. *)
Lemma _create_feature_columns_base md fc :
  _create_feature_columns md = Ok fc -> base_dict fc.
Proof.
  unfold _create_feature_columns. intros H.
  inv_bind H as fc1 H1. inv_bind H as fc2 H2. inv_bind H as fc3 H3.
  revert H. apply for_each_invariant.
  { intros s x s' Hs Hb. inv_bind Hb as n Hn. inv_bind Hb as c Hc. inv_Ok Hb.
    apply categorical_column_with_hash_bucket_Ok in Hc as [-> ?].
    apply base_dict_setitem; [exact Hs | now constructor]. }
  revert H3. apply for_each_invariant.
  { intros s x s' Hs Hb. inv_bind Hb as n Hn. inv_bind Hb as c Hc. inv_Ok Hb.
    apply categorical_column_with_vocabulary_list_Ok in Hc as [-> ?].
    apply base_dict_setitem; [exact Hs | now constructor]. }
  revert H2. apply for_each_invariant.
  { intros s x s' Hs Hb. inv_bind Hb as n Hn. inv_bind Hb as c Hc. inv_Ok Hb.
    apply categorical_column_with_identity_Ok in Hc as [-> ?].
    apply base_dict_setitem; [exact Hs | now constructor]. }
  revert H1. apply for_each_invariant.
  { intros s x s' Hs Hb. inv_bind Hb as n Hn. inv_Ok Hb.
    apply base_dict_setitem; [exact Hs | constructor]. }
  apply base_dict_nil.
Qed.

Lemma for_each_returns {A S : Type} (body : S -> A -> result S) (xs : list A) :
  (forall s x, In x xs -> exists s', body s x = Ok s') ->
  forall s, exists s', for_each xs body s = Ok s'.
Proof.
  induction xs as [| x xs IH]; simpl; intros Hb s; [eauto |].
  destruct (Hb s x (or_introl eq_refl)) as (s1 & ->). simpl.
  apply IH. intros s2 y Hy. apply Hb. now right.
Qed.

Lemma In_keys_get {V : Type} (k : string) (d : dict V) :
  In k (keys d) -> exists v, get k d = Some v /\ In v (values d).
Proof.
  induction d as [| [k' v'] d IH]; simpl; [contradiction |].
  destruct (String.eqb_spec k k') as [-> | Hne]; intros Hin.
  - exists v'. auto.
  - destruct Hin as [-> | Hin]; [contradiction |].
    destruct (IH Hin) as (v & ? & ?). exists v. auto.
Qed.

(** On valid metadata [_create_feature_columns] raises nothing. *)
Lemma _create_feature_columns_returns md :
  valid_metadata md -> exists fc, _create_feature_columns md = Ok fc.
Proof.
  intros (Hid & Hvoc & Hhash). unfold _create_feature_columns.
  destruct (for_each_returns
              (fun fc name =>
                 normalizer_fn <- numeric_normalizer_fn md ;;
                 Ok (setitem name (numeric_column name normalizer_fn) fc))
              (keys (metadata.NUMERIC_FEATURE_NAMES_WITH_STATS md)))
    with (s := @nil (string * tf.column)) as (fc1 & ->).
  { intros s x _. unfold numeric_normalizer_fn, getitem.
    destruct (get "mean" _); simpl; eauto. destruct (get "var" _); simpl; eauto. }
  simpl.
  destruct (for_each_returns
              (fun fc name =>
                 num_buckets <-
                   getitem name (metadata.CATEGORICAL_FEATURE_NAMES_WITH_IDENTITY md) ;;
                 c <- categorical_column_with_identity name num_buckets ;;
                 Ok (setitem name c fc))
              (keys (metadata.CATEGORICAL_FEATURE_NAMES_WITH_IDENTITY md)))
    with (s := fc1) as (fc2 & ->).
  { intros s x Hx. apply In_keys_get in Hx as (n & Hget & Hn).
    unfold getitem, categorical_column_with_identity. rewrite Hget. simpl.
    apply Hid in Hn. destruct (Z.ltb_spec n 1); [lia | simpl; eauto]. }
  simpl.
  destruct (for_each_returns
              (fun fc name =>
                 vocabulary_list <-
                   getitem name (metadata.CATEGORICAL_FEATURE_NAMES_WITH_VOCABULARY md) ;;
                 c <- categorical_column_with_vocabulary_list name vocabulary_list ;;
                 Ok (setitem name c fc))
              (keys (metadata.CATEGORICAL_FEATURE_NAMES_WITH_VOCABULARY md)))
    with (s := fc2) as (fc3 & ->).
  { intros s x Hx. apply In_keys_get in Hx as (l & Hget & Hl).
    unfold getitem, categorical_column_with_vocabulary_list. rewrite Hget. simpl.
    apply Hvoc in Hl as [Hlen Hdup]. rewrite Hdup.
    destruct (Nat.ltb_spec (length l) 1); [lia | simpl; eauto]. }
  simpl.
  apply for_each_returns.
  intros s x Hx. apply In_keys_get in Hx as (n & Hget & Hn).
  unfold getitem, categorical_column_with_hash_bucket. rewrite Hget. simpl.
  apply Hhash in Hn. destruct (Z.ltb_spec n 1); [lia | simpl; eauto].
Qed.

(* ===================================================================== *)
(** ** The ceiling of the square root *)
(* ===================================================================== *)

Lemma ceil_sqrt_exact_pos s : 1 <= s -> 1 <= math.ceil_sqrt_exact s.
Proof.
  intros Hs. unfold math.ceil_sqrt_exact.
  assert (1 <= Z.sqrt s) by (apply Z.sqrt_le_square; lia).
  cbv zeta. destruct (Z.sqrt s * Z.sqrt s =? s); lia.
Qed.

(** The value is the least [d] with [s <= d * d]. *)
Lemma ceil_sqrt_exact_spec s :
  1 <= s ->
  let d := math.ceil_sqrt_exact s in (d - 1) * (d - 1) < s <= d * d.
Proof.
  intros Hs. unfold math.ceil_sqrt_exact. cbv zeta.
  pose proof (Z.sqrt_spec s ltac:(lia)) as [Hlo Hhi].
  assert (1 <= Z.sqrt s) by (apply Z.sqrt_le_square; lia).
  destruct (Z.eqb_spec (Z.sqrt s * Z.sqrt s) s) as [E | E].
  - split; [nia | lia].
  - replace (Z.sqrt s + 1 - 1) with (Z.sqrt s) by lia.
    unfold Z.succ in Hhi. split; [lia | lia].
Qed.

(* ===================================================================== *)
(** ** The double-precision square root *)
(* ===================================================================== *)

Lemma round_small x sticky : 0 <= x < 2 ^ 53 -> math.round_half_even_53 x sticky = x.
Proof.
  intros [H0 H1]. unfold math.round_half_even_53. cbv zeta.
  assert (Z.log2 x < 53) as Hl.
  { destruct (Z.eq_dec x 0) as [-> | Hx]; [reflexivity |].
    apply Z.log2_lt_pow2; lia. }
  destruct (Z.leb_spec (Z.log2 x + 1 - 53) 0); [reflexivity | lia].
Qed.

(* rounding moves by at most half a unit and lands on a multiple of the unit *)
Lemma round_large x sticky :
  2 ^ 53 <= x ->
  let shift := Z.log2 x + 1 - 53 in
  let R := math.round_half_even_53 x sticky in
  1 <= shift /\ (exists m, R = m * 2 ^ shift /\ 2 ^ 52 <= m) /\
  x - 2 ^ (shift - 1) <= R <= x + 2 ^ (shift - 1) /\
  (x mod 2 ^ shift = 0 -> R = x).
Proof.
  intros Hx. cbv zeta.
  assert (0 < x) as Hpos by (pose proof (Z.pow_pos_nonneg 2 53); lia).
  assert (53 <= Z.log2 x) as Hl by (apply Z.log2_le_pow2; lia).
  set (shift := Z.log2 x + 1 - 53).
  assert (1 <= shift) as Hs by (unfold shift; lia).
  split; [exact Hs |].
  unfold math.round_half_even_53. cbv zeta. fold shift.
  destruct (Z.leb_spec shift 0) as [Hle | _]; [lia |].
  assert (0 < 2 ^ shift) as Hp by (apply Z.pow_pos_nonneg; lia).
  assert (2 ^ shift = 2 * 2 ^ (shift - 1)) as Hhalf.
  { replace shift with (Z.succ (shift - 1)) at 1 by lia.
    rewrite Z.pow_succ_r by lia. reflexivity. }
  pose proof (Z.div_mod x (2 ^ shift) ltac:(lia)) as Hdm.
  pose proof (Z.mod_pos_bound x (2 ^ shift) Hp) as Hrem.
  set (q := x / 2 ^ shift) in *. set (rem := x mod 2 ^ shift) in *.
  set (half := 2 ^ (shift - 1)) in *.
  assert (2 ^ 52 <= q) as Hq.
  { unfold q. apply Z.div_le_lower_bound; [lia |].
    rewrite <- Z.pow_add_r by lia.
    replace (shift + 52) with (Z.log2 x) by (unfold shift; lia).
    apply Z.log2_spec. lia. }
  destruct ((half <? rem) || ((rem =? half) && (sticky || Z.odd q))) eqn:Eup.
  - assert (half <= rem) as Hge.
    { apply orb_true_iff in Eup as [E | E].
      - apply Z.ltb_lt in E. lia.
      - apply andb_true_iff in E as [E _]. apply Z.eqb_eq in E. lia. }
    split; [exists (q + 1); split; [reflexivity | lia] |].
    split; [nia |]. intros Hz. lia.
  - assert (rem <= half) as Hle.
    { apply orb_false_iff in Eup as [E _]. apply Z.ltb_ge in E. lia. }
    split; [exists q; split; [reflexivity | lia] |].
    split; [nia |]. intros Hz. nia.
Qed.

Lemma float_of_int_small n : 0 <= n < 2 ^ 53 -> math.float_of_int n = Ok n.
Proof.
  intros Hn. unfold math.float_of_int. cbv zeta.
  rewrite Z.abs_eq by lia. rewrite round_small by exact Hn.
  assert (2 ^ 53 < 2 ^ 1024) by (apply Z.pow_lt_mono_r; lia).
  destruct (Z.leb_spec (2 ^ 1024) n); [lia |].
  f_equal. destruct (Z.eq_dec n 0) as [-> | Hne]; [reflexivity |].
  rewrite Z.sgn_pos by lia. lia.
Qed.


Lemma ceil_between r R :
  r * 2 ^ 55 < R <= (r + 1) * 2 ^ 55 -> math.ceil R = r + 1.
Proof.
  intros H. unfold math.ceil.
  assert (0 < 2 ^ 55) by (apply Z.pow_pos_nonneg; lia).
  symmetry. apply (Z.div_unique _ _ _ (R + 2 ^ 55 - 1 - (r + 1) * 2 ^ 55)); lia.
Qed.

Lemma sqrt_scaled_exact_range n :
  1 <= n < 2 ^ 52 -> math.ceil (math.sqrt_scaled n) = math.ceil_sqrt_exact n.
Proof.
  intros [H1 H2]. unfold math.sqrt_scaled, math.ceil_sqrt_exact. cbv zeta.
  pose proof (Z.sqrt_spec n ltac:(lia)) as [Hlo Hhi]. unfold Z.succ in Hhi.
  set (r := Z.sqrt n) in *.
  assert (1 <= r) as Hr1 by (apply Z.sqrt_le_square; lia).
  assert (r < 2 ^ 26) as Hr2.
  { apply Z.sqrt_lt_square; [lia | lia |]. change (2 ^ 26 * 2 ^ 26) with (2 ^ 52). lia. }
  assert (HP : 2 ^ 55 = 36028797018963968) by reflexivity.
  assert (HPP : 2 ^ 110 = 36028797018963968 * 36028797018963968) by reflexivity.
  assert (H26 : 2 ^ 26 = 67108864) by reflexivity.
  assert (H53 : 2 ^ 53 = 9007199254740992) by reflexivity.
  set (X := n * 2 ^ 110).
  assert (0 <= X) as HX0 by (unfold X; rewrite HPP; nia).
  pose proof (Z.sqrt_spec X HX0) as [HSlo HShi]. unfold Z.succ in HShi.
  pose proof (Z.sqrt_nonneg X) as HS0.
  set (S := Z.sqrt X) in *.
  (* S is below 2^81, so the rounding unit is at most 2^28 *)
  assert (HSlt : S < 2 ^ 81).
  { apply Z.sqrt_lt_square; [lia | lia |].
    change (2 ^ 81 * 2 ^ 81) with (2 ^ 52 * 2 ^ 110). unfold X.
    apply Z.mul_lt_mono_pos_r; [rewrite HPP; lia | lia]. }
  destruct (Z.eqb_spec (r * r) n) as [Hsq | Hnsq].
  - (* a perfect square: the root is exact *)
    assert (HS : S = r * 2 ^ 55).
    { unfold S, X. rewrite <- Hsq.
      replace (r * r * 2 ^ 110) with ((r * 2 ^ 55) * (r * 2 ^ 55))
        by (rewrite HP, HPP; ring).
      apply Z.sqrt_square. rewrite HP. lia. }
    assert (HSS : S * S = X) by (rewrite HS; unfold X; rewrite <- Hsq, HP, HPP; ring).
    rewrite (proj2 (Z.eqb_eq _ _) HSS). simpl negb.
    assert (2 ^ 53 <= S) as HS53 by (rewrite HS, HP, H53; nia).
    destruct (round_large S false HS53) as (Hs & _ & _ & Hexact).
    assert (Z.log2 S < 81) as Hl by (apply Z.log2_lt_pow2; lia).
    set (shift := Z.log2 S + 1 - 53) in *.
    rewrite Hexact.
    + unfold math.ceil. rewrite HS, HP.
      replace (r * 36028797018963968 + 36028797018963968 - 1)
        with (r * 36028797018963968 + 36028797018963967) by lia.
      rewrite Z.div_add_l by lia. rewrite Z.div_small by lia. lia.
    + rewrite HS. replace 55 with ((55 - shift) + shift) at 1 by lia.
      rewrite Z.pow_add_r by lia. rewrite Z.mul_assoc.
      apply Z.mod_mul. apply Z.pow_nonzero; lia.
  - (* not a square: the rounded root stays strictly between r and r + 1 *)
    assert (r * r + 1 <= n) as Hn1 by lia.
    assert (HSge : r * 2 ^ 55 + 2 ^ 28 <= S).
    { apply Z.sqrt_le_square; [lia | rewrite HP; change (2 ^ 28) with 268435456; lia |].
      unfold X. rewrite HP, HPP. change (2 ^ 28) with 268435456. rewrite H26 in Hr2. nia. }
    assert (HSle : S < (r + 1) * 2 ^ 55 - 2 ^ 28).
    { apply Z.sqrt_lt_square; [lia | rewrite HP; change (2 ^ 28) with 268435456; lia |].
      unfold X. rewrite HP, HPP. change (2 ^ 28) with 268435456. rewrite H26 in Hr2. nia. }
    assert (2 ^ 53 <= S) as HS53.
    { rewrite HP in HSge. rewrite H53. change (2 ^ 28) with 268435456 in HSge. nia. }
    destruct (round_large S (negb (S * S =? X)) HS53) as (Hs & _ & Hnear & _).
    assert (Z.log2 S < 81) as Hl by (apply Z.log2_lt_pow2; lia).
    set (shift := Z.log2 S + 1 - 53) in *.
    assert (2 ^ (shift - 1) <= 2 ^ 27) as Hu by (apply Z.pow_le_mono_r; lia).
    apply ceil_between.
    change (2 ^ 27) with 134217728 in Hu. change (2 ^ 28) with 268435456 in *.
    lia.
Qed.

Lemma ceil_sqrt_exact_range n :
  0 <= n < 2 ^ 52 -> math.ceil_sqrt n = Ok (math.ceil_sqrt_exact n).
Proof.
  intros Hn. unfold math.ceil_sqrt, math.sqrt.
  assert (2 ^ 52 < 2 ^ 53) by (apply Z.pow_lt_mono_r; lia).
  rewrite float_of_int_small by lia. cbn [Py.bind].
  destruct (Z.ltb_spec n 0); [lia |]. cbn [Py.bind].
  destruct (Z.eq_dec n 0) as [-> | Hne]; [reflexivity |].
  f_equal. apply sqrt_scaled_exact_range. lia.
Qed.


(** Beyond [2^52] the double-precision value can fall below the exact
    ceiling: [2^52 + 1] is not a square, and its root rounds to [2^26]. *)
Example ceil_sqrt_rounds_down_at_2_52_plus_1 :
  math.ceil_sqrt (2 ^ 52 + 1) = Ok (2 ^ 26) /\
  math.ceil_sqrt_exact (2 ^ 52 + 1) = 2 ^ 26 + 1.
Proof. split; vm_compute; reflexivity. Qed.

(** A size in the range where the double-precision value is the exact
    ceiling of the square root. *)
Lemma embeds_exact_range args s : 1 <= s < 2 ^ 52 -> embeds args s.
Proof.
  intros Hs _. exists (math.ceil_sqrt_exact s).
  split; [apply ceil_sqrt_exact_range; lia | apply ceil_sqrt_exact_pos; lia].
Qed.

Lemma embeds_mono args args' s :
  (embed_categorical_columns args' = true ->
   embed_categorical_columns args = true) ->
  embeds args s -> embeds args' s.
Proof. unfold embeds. auto. Qed.

Lemma column_embeds_mono args args' c :
  (embed_categorical_columns args' = true ->
   embed_categorical_columns args = true) ->
  column_embeds args c -> column_embeds args' c.
Proof.
  intros Himp. destruct c; simpl; auto; now apply embeds_mono.
Qed.

(* ===================================================================== *)
(** ** What one turn of the loop of [_extend_feature_columns] appends *)
(* ===================================================================== *)

Lemma append_embedding_Ok args c s ext ext' :
  append_embedding args c s ext = Ok ext' ->
  ext' = ext ++ embedding_part args c s.
Proof.
  unfold append_embedding, embedding_part, loop_embedding, embedding_column.
  destruct (embed_categorical_columns args).
  - destruct (math.ceil_sqrt s) as [d | e]; simpl; [| discriminate].
    destruct (d <? 1); simpl; [discriminate |].
    intros H. now inv_Ok H.
  - intros H. inv_Ok H. now rewrite app_nil_r.
Qed.

Lemma append_embedding_embeds args c s ext ext' :
  append_embedding args c s ext = Ok ext' -> embeds args s.
Proof.
  unfold append_embedding, embeds, embedding_column. intros H He.
  rewrite He in H.
  destruct (math.ceil_sqrt s) as [d | e]; simpl in H; [| discriminate].
  destruct (Z.ltb_spec d 1); simpl in H; [discriminate |].
  exists d. split; [reflexivity | lia].
Qed.

Lemma append_embedding_valid args c s ext :
  embeds args s ->
  append_embedding args c s ext = Ok (ext ++ embedding_part args c s).
Proof.
  intros Hs.
  unfold append_embedding, embedding_part, loop_embedding, embedding_column.
  destruct (embed_categorical_columns args) eqn:He; [| now rewrite app_nil_r].
  destruct (Hs He) as (d & -> & Hd). simpl.
  destruct (Z.ltb_spec d 1) as [Hlt | _]; [lia |].
  reflexivity.
Qed.

Lemma append_indicator_categorical args c ext :
  isCategoricalColumn c = true ->
  append_indicator args c ext = Ok (ext ++ indicator_part args c).
Proof.
  intros Hc. unfold append_indicator, indicator_part, indicator_column.
  rewrite Hc. destruct (use_indicator_columns args); simpl;
    [reflexivity | now rewrite app_nil_r].
Qed.

Lemma extend_body_Ok fc args ext k ext' :
  extend_body fc args ext k = Ok ext' ->
  exists c, get k fc = Some c /\ ext' = ext ++ contribution args c.
Proof.
  unfold extend_body. intros H. inv_bind H.
  apply getitem_Ok in Ha. exists a. split; [exact Ha |].
  unfold contribution, derived_part, pass_through.
  destruct a; simpl in H; destruct (use_wide_columns args); simpl in *;
    repeat match goal with
      | Hb : Py.bind _ _ = Ok _ |- _ => inv_bind Hb
      | Hb : append_embedding _ _ _ _ = Ok _ |- _ =>
          apply append_embedding_Ok in Hb; subst
      | Hb : append_indicator ?a ?c ?e = Ok _ |- _ =>
          rewrite (append_indicator_categorical a c e eq_refl) in Hb
      | Hb : Ok _ = Ok _ |- _ => inv_Ok Hb
      end;
    rewrite <- ?app_assoc, ?app_nil_r; reflexivity.
Qed.

(** A turn of the loop that returns has computed the dimension it
    needed. *)
Lemma extend_body_embeds fc args ext k ext' c :
  extend_body fc args ext k = Ok ext' ->
  get k fc = Some c -> column_embeds args c.
Proof.
  unfold extend_body, getitem. intros H Hget. rewrite Hget in H. simpl in H.
  destruct c; simpl in *; try exact I;
    repeat match goal with
      | Hb : Py.bind _ _ = Ok _ |- _ => inv_bind Hb
      end;
    match goal with
    | Hb : append_embedding _ _ _ _ = Ok _ |- _ =>
        exact (append_embedding_embeds _ _ _ _ _ Hb)
    end.
Qed.

Lemma extend_body_base fc args ext k c :
  get k fc = Some c -> column_embeds args c ->
  extend_body fc args ext k = Ok (ext ++ contribution args c).
Proof.
  intros Hget Hemb. unfold extend_body, getitem. rewrite Hget. simpl.
  unfold contribution, derived_part, pass_through.
  destruct c; simpl in *;
    try rewrite (append_embedding_valid _ _ _ _ Hemb); simpl;
    rewrite ?append_indicator_categorical by reflexivity; simpl;
    destruct (use_wide_columns args); simpl;
    rewrite <- ?app_assoc, ?app_nil_r; reflexivity.
Qed.

(* ===================================================================== *)
(** ** The extended list as a whole *)
(* ===================================================================== *)

Lemma visited_keys fc : NoDup (keys fc) -> visited fc (keys fc) (values fc).
Proof.
  intros Hnd. unfold visited.
  assert (forall l : dict tf.column, incl l fc ->
            map (fun k => get k fc) (keys l) = map Some (values l)) as Hsub.
  { induction l as [| [k c] l IH]; intros Hincl; simpl; [reflexivity |].
    rewrite (In_get k c fc Hnd) by (apply Hincl; now left).
    f_equal. apply IH. intros x Hx. apply Hincl. now right. }
  apply Hsub, incl_refl.
Qed.

Lemma visited_unique fc ks cs cs' : visited fc ks cs -> visited fc ks cs' -> cs = cs'.
Proof.
  unfold visited. intros -> H. revert cs' H.
  induction cs as [| c cs IH]; intros [| c' cs']; simpl; intros H;
    try discriminate; [reflexivity |].
  injection H as -> H. f_equal. auto.
Qed.

Lemma visited_get fc ks cs k c :
  visited fc ks cs -> In k ks -> get k fc = Some c -> In c cs.
Proof.
  unfold visited. revert cs.
  induction ks as [| k' ks IH]; intros [| c' cs]; simpl; intros H Hin Hget;
    try discriminate; [contradiction |].
  injection H as Hk H. destruct Hin as [-> | Hin].
  - left. congruence.
  - right. eauto.
Qed.

Lemma visited_In fc ks cs c :
  visited fc ks cs -> In c cs -> exists k, In k ks /\ get k fc = Some c.
Proof.
  unfold visited. revert cs.
  induction ks as [| k' ks IH]; intros [| c' cs]; simpl; intros H Hin;
    try discriminate; [contradiction |].
  injection H as Hk H. destruct Hin as [-> | Hin].
  - exists k'. auto.
  - destruct (IH cs H Hin) as (k & ? & ?). exists k. auto.
Qed.

Lemma extend_loop_Ok fc args ks ext ext' :
  for_each ks (extend_body fc args) ext = Ok ext' ->
  exists cs, visited fc ks cs /\ ext' = ext ++ flat_map (contribution args) cs.
Proof.
  revert ext. induction ks as [| k ks IH]; simpl; intros ext H.
  - inv_Ok H. exists []. split; [reflexivity | now rewrite app_nil_r].
  - inv_bind H. apply extend_body_Ok in Ha as (c & Hget & ->).
    destruct (IH _ H) as (cs & Hcs & ->).
    exists (c :: cs). split.
    + unfold visited in *. simpl. now rewrite Hget, Hcs.
    + simpl. now rewrite app_assoc.
Qed.

Lemma extend_loop_embeds fc args ks ext ext' cs :
  for_each ks (extend_body fc args) ext = Ok ext' ->
  visited fc ks cs -> Forall (column_embeds args) cs.
Proof.
  unfold visited. revert ext cs.
  induction ks as [| k ks IH]; intros ext [| c cs] H Hv; simpl in *;
    try discriminate; [constructor |].
  injection Hv as Hget Hv. inv_bind H as ext1 Hb. constructor.
  - exact (extend_body_embeds _ _ _ _ _ _ Hb Hget).
  - exact (IH _ _ H Hv).
Qed.

Lemma extend_loop_base fc args ks cs ext :
  visited fc ks cs ->
  Forall (column_embeds args) cs ->
  for_each ks (extend_body fc args) ext
  = Ok (ext ++ flat_map (contribution args) cs).
Proof.
  unfold visited. revert cs ext.
  induction ks as [| k ks IH]; intros [| c cs] ext H Hemb; simpl in *;
    try discriminate; [now rewrite app_nil_r |].
  injection H as Hget H. inversion Hemb as [| ? ? Hc Hcs]; subst.
  rewrite (extend_body_base fc args ext k c Hget Hc).
  simpl. rewrite IH with (cs := cs) by auto. now rewrite app_assoc.
Qed.

Lemma bucketized_column_Ok c bs b :
  bucketized_column c bs = Ok b ->
  b = BucketizedColumn c bs /\ isNumericColumn c = true.
Proof.
  unfold bucketized_column. destruct (isNumericColumn c); simpl;
    [| discriminate].
  destruct bs; [discriminate |].
  destruct (strictly_increasing _); intros H; [inv_Ok H; auto | discriminate].
Qed.

Lemma _extend_feature_columns_Ok fc args ext :
  _extend_feature_columns fc args = Ok ext ->
  exists tm ts co cs,
    get "trip_miles" fc = Some tm /\ isNumericColumn tm = true /\
    get "trip_seconds" fc = Some ts /\ isNumericColumn ts = true /\
    get "company" fc = Some co /\
    visited fc (keys fc) cs /\
    ext = fixed_columns tm ts co ++ flat_map (contribution args) cs.
Proof.
  unfold _extend_feature_columns. intros H.
  inv_bind H as tm Htm. apply getitem_Ok in Htm.
  inv_bind H as b1 Hb1. apply bucketized_column_Ok in Hb1 as [-> Hn1].
  inv_bind H as ts Hts. apply getitem_Ok in Hts.
  inv_bind H as b2 Hb2. apply bucketized_column_Ok in Hb2 as [-> Hn2].
  simpl in H.
  inv_bind H as co Hco. apply getitem_Ok in Hco.
  simpl in H.
  apply extend_loop_Ok in H as (cs & Hcs & ->).
  exists tm, ts, co, cs. repeat split; assumption.
Qed.

(** A call that returns has computed every dimension it needed. *)
Lemma _extend_feature_columns_embeds fc args ext :
  NoDup (keys fc) ->
  _extend_feature_columns fc args = Ok ext ->
  Forall (column_embeds args) (values fc).
Proof.
  unfold _extend_feature_columns. intros Hnd H.
  inv_bind H as tm Htm. inv_bind H as b1 Hb1.
  inv_bind H as ts Hts. inv_bind H as b2 Hb2.
  inv_bind H as x Hx. inv_bind H as co Hco. inv_bind H as ce Hce.
  cbv zeta in H.
  exact (extend_loop_embeds _ _ _ _ _ _ H (visited_keys fc Hnd)).
Qed.

Lemma _extend_feature_columns_base fc args tm ts co :
  NoDup (keys fc) ->
  Forall (column_embeds args) (values fc) ->
  get "trip_miles" fc = Some tm -> isNumericColumn tm = true ->
  get "trip_seconds" fc = Some ts -> isNumericColumn ts = true ->
  get "company" fc = Some co ->
  _extend_feature_columns fc args
  = Ok (fixed_columns tm ts co ++ flat_map (contribution args) (values fc)).
Proof.
  intros Hnd Hemb Htm Hn1 Hts Hn2 Hco.
  unfold _extend_feature_columns, getitem.
  rewrite Htm, Hts, Hco. simpl.
  unfold bucketized_column. rewrite Hn1, Hn2. simpl.
  change (?a :: ?b :: ?c :: ?d :: flat_map ?f ?l)
    with ([a; b; c; d] ++ flat_map f l).
  apply extend_loop_base; [now apply visited_keys | exact Hemb].
Qed.

(** Whether [_extend_feature_columns] raises depends on [args] through
    [embed_categorical_columns] only: a call that returns still returns
    under parameters that do not switch that flag on. *)
Lemma _extend_feature_columns_any_args fc args args' ext :
  base_dict fc ->
  _extend_feature_columns fc args = Ok ext ->
  (embed_categorical_columns args' = true ->
   embed_categorical_columns args = true) ->
  exists tm ts co,
    get "trip_miles" fc = Some tm /\ get "trip_seconds" fc = Some ts /\
    get "company" fc = Some co /\
    ext = fixed_columns tm ts co ++ flat_map (contribution args) (values fc) /\
    _extend_feature_columns fc args'
    = Ok (fixed_columns tm ts co ++ flat_map (contribution args') (values fc)).
Proof.
  intros Hb H Himp.
  pose proof (_extend_feature_columns_embeds fc args ext (proj1 Hb) H) as Hemb.
  apply _extend_feature_columns_Ok in H
    as (tm & ts & co & cs & Htm & Hn1 & Hts & Hn2 & Hco & Hcs & ->).
  exists tm, ts, co. repeat split; try assumption.
  - rewrite (visited_unique _ _ _ _ Hcs (visited_keys fc (proj1 Hb))).
    reflexivity.
  - apply _extend_feature_columns_base; try assumption; [exact (proj1 Hb) |].
    eapply Forall_impl; [| exact Hemb].
    intros c. now apply column_embeds_mono.
Qed.

(* ===================================================================== *)
(** ** Kinds of descriptors and the two output lists *)
(* ===================================================================== *)

Lemma is_dense_kind c :
  is_dense c = true <->
  kind_of c = numeric \/ kind_of c = embedding \/ kind_of c = indicator.
Proof.
  destruct c; cbn; split; intros H; try reflexivity; try discriminate; auto;
    repeat (destruct H as [H | H]; try discriminate).
Qed.

Lemma is_sparse_kind c :
  is_sparse c = true <->
  kind_of c = categorical_vocabulary \/ kind_of c = categorical_identity
  \/ kind_of c = bucketized \/ kind_of c = crossed.
Proof.
  destruct c; cbn; split; intros H; try reflexivity; try discriminate; auto;
    repeat (destruct H as [H | H]; try discriminate).
Qed.

Lemma base_column_kind k c :
  base_column k c -> kind_of c = numeric \/ categorical_base c.
Proof.
  unfold categorical_base. destruct 1; cbn; auto.
Qed.

Lemma create_wide_and_deep_columns_Ok md args wide deep :
  create_wide_and_deep_columns md args = Ok (wide, deep) <->
  exists fc ext,
    _create_feature_columns md = Ok fc /\
    _extend_feature_columns fc args = Ok ext /\
    wide = filter is_sparse ext /\ deep = filter is_dense ext.
Proof.
  unfold create_wide_and_deep_columns, _get_sparse_and_dense_columns. split.
  - intros H. inv_bind H as fc Hfc. inv_bind H as ext Hext. inv_Ok H.
    exists fc, ext. auto.
  - intros (fc & ext & -> & Hext & -> & ->). simpl. rewrite Hext. reflexivity.
Qed.

Lemma In_contribution args c x :
  In x (contribution args c) ->
  kind_of x = embedding \/ kind_of x = indicator
  \/ (x = c /\ (isNumericColumn c || use_wide_columns args = true)).
Proof.
  unfold contribution, derived_part, embedding_part, loop_embedding,
    indicator_part, pass_through.
  intros H. apply in_app_or in H as [H | H].
  - destruct c; simpl in H; try contradiction;
      destruct (embed_categorical_columns args), (use_indicator_columns args);
      try destruct (math.ceil_sqrt _);
      simpl in H; intuition (subst; auto).
  - destruct (isNumericColumn c || use_wide_columns args) eqn:E;
      simpl in H; intuition (subst; auto).
Qed.

Lemma In_pass_through_contribution args c :
  isNumericColumn c || use_wide_columns args = true ->
  In c (contribution args c).
Proof.
  intros H. unfold contribution, derived_part, pass_through. rewrite H.
  apply in_or_app. right. now left.
Qed.

Lemma In_fixed_columns tm ts co x :
  In x (fixed_columns tm ts co) ->
  kind_of x = bucketized \/ kind_of x = crossed \/ x = EmbeddingColumn co 10.
Proof.
  unfold fixed_columns. simpl. intuition (subst; auto).
Qed.

Lemma _create_feature_columns_taxi :
  _create_feature_columns taxi = Ok taxi_feature_columns.
Proof. reflexivity. Qed.

(* ===================================================================== *)
(** ** The dense and sparse classification *)
(* ===================================================================== *)

(** C6. A descriptor is put in the dense list by
    [_get_sparse_and_dense_columns] exactly when it is one of the given
    descriptors and is numeric, an embedding or an indicator; it is put in
    the sparse list exactly when it is one of the given descriptors and is
    vocabulary-categorical, identity-categorical, bucketized or crossed. *)
Theorem C6_dense_sparse_classification (feature_columns : list tf.column)
    (c : tf.column) :
  (In c (snd (_get_sparse_and_dense_columns feature_columns)) <->
   In c feature_columns /\
   (kind_of c = numeric \/ kind_of c = embedding \/ kind_of c = indicator))
  /\
  (In c (fst (_get_sparse_and_dense_columns feature_columns)) <->
   In c feature_columns /\
   (kind_of c = categorical_vocabulary \/ kind_of c = categorical_identity
    \/ kind_of c = bucketized \/ kind_of c = crossed)).
Proof.
  unfold _get_sparse_and_dense_columns. simpl. split.
  - rewrite filter_In, is_dense_kind. reflexivity.
  - rewrite filter_In, is_sparse_kind. reflexivity.
Qed.

(* ===================================================================== *)
(** ** The pass-through rule *)
(* ===================================================================== *)

(** C7. In the list returned by [_extend_feature_columns] a categorical
    base descriptor (identity, vocabulary or hashed) occurs only when
    [use_wide_columns] is set; when it is set, every categorical base
    descriptor of the dictionary is in the list as it is. *)
Theorem C7_pass_through_only_when_wide (feature_columns : dict tf.column)
    (args : Args) (extended : list tf.column) :
  _extend_feature_columns feature_columns args = Ok extended ->
  (forall c, In c extended -> categorical_base c ->
             use_wide_columns args = true)
  /\
  (use_wide_columns args = true ->
   forall name c, get name feature_columns = Some c -> categorical_base c ->
                  In c extended).
Proof.
  intros H.
  apply _extend_feature_columns_Ok in H
    as (tm & ts & co & cs & _ & _ & _ & _ & _ & Hcs & ->).
  split.
  - intros c Hin Hcat. apply in_app_or in Hin as [Hin | Hin].
    + apply In_fixed_columns in Hin. unfold categorical_base in Hcat.
      destruct Hin as [E | [E | ->]]; try rewrite E in Hcat; cbn in Hcat;
        intuition discriminate.
    + apply in_flat_map in Hin as (c' & _ & Hin).
      apply In_contribution in Hin. unfold categorical_base in Hcat.
      destruct Hin as [E | [E | [-> Hpass]]];
        try (rewrite E in Hcat; intuition discriminate).
      destruct c'; cbn in Hcat, Hpass; try exact Hpass;
        intuition discriminate.
  - intros Hwide name c Hget Hcat. apply in_or_app. right.
    apply in_flat_map. exists c. split.
    + eapply visited_get; [exact Hcs | | exact Hget].
      now apply get_In_keys in Hget.
    + apply In_pass_through_contribution. rewrite Hwide. apply orb_true_r.
Qed.

Lemma C7_pass_through_only_when_wide_witness :
  let args := mkArgs false false true in
  let extended :=
    fixed_columns (NumericColumn "trip_miles" None)
      (NumericColumn "trip_seconds" None)
      (HashedCategoricalColumn "company" 1000)
    ++ [NumericColumn "trip_miles" None;
        NumericColumn "trip_seconds" None;
        IdentityCategoricalColumn "trip_start_hour" 24;
        VocabularyListCategoricalColumn "payment_type"
          ["Cash"; "Credit Card"; "Unknown"];
        HashedCategoricalColumn "company" 1000] in
  (forall c, In c extended -> categorical_base c ->
             use_wide_columns args = true)
  /\
  (use_wide_columns args = true ->
   forall name c, get name taxi_feature_columns = Some c -> categorical_base c ->
                  In c extended).
Proof.
  apply (C7_pass_through_only_when_wide taxi_feature_columns
           (mkArgs false false true)).
  reflexivity.
Defined.

(* ===================================================================== *)
(** ** Loops whose bodies agree *)
(* ===================================================================== *)

Lemma for_each_ext {A S : Type} (body body' : S -> A -> result S) (xs : list A) :
  (forall s x, body s x = body' s x) ->
  forall s, for_each xs body s = for_each xs body' s.
Proof.
  intros Hb. induction xs as [| x xs IH]; simpl; intros s; [reflexivity |].
  rewrite Hb. destruct (body' s x); simpl; auto.
Qed.

(* ===================================================================== *)
(** ** Numeric descriptors always reach the deep list *)
(* ===================================================================== *)

(** C9. Every numeric descriptor of the base dictionary built from the
    metadata is in the deep list returned by
    [create_wide_and_deep_columns], for every setting of the flags. *)
Theorem C9_numeric_always_deep (md : metadata.t) (args : Args)
    (feature_columns : dict tf.column) (wide deep : list tf.column) :
  _create_feature_columns md = Ok feature_columns ->
  create_wide_and_deep_columns md args = Ok (wide, deep) ->
  forall name c,
    get name feature_columns = Some c -> kind_of c = numeric -> In c deep.
Proof.
  intros Hfc H name c Hget Hnum.
  apply create_wide_and_deep_columns_Ok in H as (fc & ext & Hfc' & Hext & _ & ->).
  rewrite Hfc in Hfc'. inv_Ok Hfc'.
  apply filter_In. split; [| apply is_dense_kind; auto].
  apply _extend_feature_columns_Ok in Hext
    as (tm & ts & co & cs & _ & _ & _ & _ & _ & Hcs & ->).
  apply in_or_app. right. apply in_flat_map. exists c. split.
  - eapply visited_get; [exact Hcs | | exact Hget].
    now apply get_In_keys in Hget.
  - apply In_pass_through_contribution. destruct c; try discriminate.
    reflexivity.
Qed.

Lemma C9_numeric_always_deep_witness :
  In (NumericColumn "trip_seconds" None)
     (deep_of taxi_feature_columns (HashedCategoricalColumn "company" 1000)
        (mkArgs true true false)).
Proof.
  apply (C9_numeric_always_deep taxi (mkArgs true true false)
           taxi_feature_columns
           (wide_of taxi_feature_columns (NumericColumn "trip_miles" None)
              (NumericColumn "trip_seconds" None) (mkArgs true true false))
           (deep_of taxi_feature_columns
              (HashedCategoricalColumn "company" 1000) (mkArgs true true false))
           eq_refl eq_refl "trip_seconds");
    reflexivity.
Defined.

(* ===================================================================== *)
(** ** The shape of the wide and deep lists *)
(* ===================================================================== *)

Lemma filter_flat_map {A B : Type} (p : B -> bool) (f : A -> list B) (l : list A) :
  filter p (flat_map f l) = flat_map (fun x => filter p (f x)) l.
Proof.
  induction l as [| a l IH]; simpl; [reflexivity |].
  now rewrite filter_app, IH.
Qed.

Lemma flat_map_ext_In {A B : Type} (f g : A -> list B) (l : list A) :
  (forall x, In x l -> f x = g x) -> flat_map f l = flat_map g l.
Proof.
  induction l as [| a l IH]; simpl; intros H; [reflexivity |].
  rewrite H by now left. f_equal. apply IH. intros x Hx. apply H. now right.
Qed.

Lemma flat_map_if_filter {A : Type} (b : bool) (p : A -> bool) (l : list A) :
  flat_map (fun c => if b && p c then [c] else []) l
  = if b then filter p l else [].
Proof.
  destruct b; simpl.
  - induction l as [| a l IH]; simpl; [reflexivity |].
    rewrite IH. now destruct (p a).
  - induction l as [| a l IH]; simpl; auto.
Qed.

Lemma base_dict_values fc c :
  base_dict fc -> In c (values fc) -> exists k, base_column k c.
Proof.
  intros [_ Hb] Hin. unfold values in Hin.
  apply in_map_iff in Hin as ([k c'] & <- & Hin). exists k. now apply Hb.
Qed.

Lemma filter_is_sparse_contribution k c args :
  base_column k c ->
  filter is_sparse (contribution args c)
  = if use_wide_columns args && identity_or_vocabulary c then [c] else [].
Proof.
  unfold contribution, derived_part, embedding_part, loop_embedding,
    indicator_part, pass_through.
  destruct 1; destruct (embed_categorical_columns args),
    (use_indicator_columns args), (use_wide_columns args);
    try destruct (math.ceil_sqrt _); reflexivity.
Qed.

Lemma filter_is_dense_contribution k c args :
  base_column k c ->
  filter is_dense (contribution args c)
  = derived_part args c ++ (if isNumericColumn c then [c] else []).
Proof.
  unfold contribution, derived_part, embedding_part, loop_embedding,
    indicator_part, pass_through.
  destruct 1; destruct (embed_categorical_columns args),
    (use_indicator_columns args), (use_wide_columns args);
    try destruct (math.ceil_sqrt _); reflexivity.
Qed.

Lemma wide_shape fc args tm ts co :
  base_dict fc ->
  filter is_sparse
    (fixed_columns tm ts co ++ flat_map (contribution args) (values fc))
  = wide_of fc tm ts args.
Proof.
  intros Hb. rewrite filter_app. unfold wide_of. f_equal.
  rewrite filter_flat_map, <- flat_map_if_filter.
  apply flat_map_ext_In. intros c Hc.
  destruct (base_dict_values fc c Hb Hc) as (k & Hk).
  now apply filter_is_sparse_contribution with (k := k).
Qed.

Lemma deep_shape fc args tm ts co :
  base_dict fc ->
  filter is_dense
    (fixed_columns tm ts co ++ flat_map (contribution args) (values fc))
  = deep_of fc co args.
Proof.
  intros Hb. rewrite filter_app. unfold deep_of.
  change (filter is_dense (fixed_columns tm ts co)) with [EmbeddingColumn co 10].
  simpl. f_equal. rewrite filter_flat_map.
  apply flat_map_ext_In. intros c Hc.
  destruct (base_dict_values fc c Hb Hc) as (k & Hk).
  now apply filter_is_dense_contribution with (k := k).
Qed.

(** When one call of [create_wide_and_deep_columns] returns, so does
    every call on the same metadata that does not switch
    [embed_categorical_columns] on, and the two lists have the shape
    above. *)
Lemma create_wide_and_deep_columns_shape md args wide deep :
  create_wide_and_deep_columns md args = Ok (wide, deep) ->
  exists fc tm ts co,
    _create_feature_columns md = Ok fc /\ base_dict fc /\
    get "trip_miles" fc = Some tm /\ get "trip_seconds" fc = Some ts /\
    get "company" fc = Some co /\
    forall args',
      (embed_categorical_columns args' = true ->
       embed_categorical_columns args = true) ->
      create_wide_and_deep_columns md args'
      = Ok (wide_of fc tm ts args', deep_of fc co args').
Proof.
  intros H.
  apply create_wide_and_deep_columns_Ok in H as (fc & ext & Hfc & Hext & _ & _).
  pose proof (_create_feature_columns_base md fc Hfc) as Hb.
  exists fc.
  destruct (_extend_feature_columns_any_args fc args args ext Hb Hext
              (fun e => e))
    as (tm & ts & co & Htm & Hts & Hco & _ & _).
  exists tm, ts, co.
  split; [exact Hfc |]. split; [exact Hb |]. split; [exact Htm |].
  split; [exact Hts |]. split; [exact Hco |].
  intros args' Himp.
  destruct (_extend_feature_columns_any_args fc args args' ext Hb Hext Himp)
    as (tm' & ts' & co' & Htm' & Hts' & Hco' & _ & Hext').
  assert (tm' = tm) as -> by congruence.
  assert (ts' = ts) as -> by congruence.
  assert (co' = co) as -> by congruence.
  apply create_wide_and_deep_columns_Ok.
  eexists fc, _. split; [exact Hfc |]. split; [exact Hext' |].
  split; [now rewrite wide_shape | now rewrite deep_shape].
Qed.

(** A call that returns has computed every dimension it needed. *)
Lemma create_wide_and_deep_columns_embeds md args fc wide deep :
  _create_feature_columns md = Ok fc ->
  create_wide_and_deep_columns md args = Ok (wide, deep) ->
  Forall (column_embeds args) (values fc).
Proof.
  intros Hfc H.
  apply create_wide_and_deep_columns_Ok in H as (fc' & ext & Hfc' & Hext & _ & _).
  assert (fc' = fc) as -> by congruence.
  apply (_extend_feature_columns_embeds fc args ext); [| exact Hext].
  exact (proj1 (_create_feature_columns_base md fc Hfc)).
Qed.

(** [create_wide_and_deep_columns] returns as soon as the base
    dictionary is built and holds numeric columns under ['trip_miles'] and
    ['trip_seconds'] and some column under ['company'], and the dimensions
    the flags ask for can be computed. *)
Lemma create_wide_and_deep_columns_returns md args fc tm ts co :
  _create_feature_columns md = Ok fc ->
  Forall (column_embeds args) (values fc) ->
  get "trip_miles" fc = Some tm -> isNumericColumn tm = true ->
  get "trip_seconds" fc = Some ts -> isNumericColumn ts = true ->
  get "company" fc = Some co ->
  create_wide_and_deep_columns md args
  = Ok (wide_of fc tm ts args, deep_of fc co args).
Proof.
  intros Hfc Hemb Htm Hn1 Hts Hn2 Hco.
  pose proof (_create_feature_columns_base md fc Hfc) as Hb.
  apply create_wide_and_deep_columns_Ok. eexists fc, _.
  split; [exact Hfc |].
  split; [apply _extend_feature_columns_base with (tm := tm) (ts := ts) (co := co);
          try assumption; exact (proj1 Hb) |].
  split; [now rewrite wide_shape | now rewrite deep_shape].
Qed.

Lemma In_derived_part args c d :
  In d (derived_part args c) ->
  (exists n, d = EmbeddingColumn c n /\ embed_categorical_columns args = true
             /\ identity_or_vocabulary c = true)
  \/ (d = IndicatorColumn c /\ use_indicator_columns args = true).
Proof.
  unfold derived_part, embedding_part, loop_embedding, indicator_part.
  destruct c; simpl; try contradiction;
    destruct (embed_categorical_columns args), (use_indicator_columns args);
    try destruct (math.ceil_sqrt _);
    simpl; intuition (subst; eauto).
Qed.

Lemma deep_of_with_use_wide_columns fc co b args :
  deep_of fc co (with_use_wide_columns b args) = deep_of fc co args.
Proof. reflexivity. Qed.

Lemma filter_bucketized_or_crossed_nil (l : list tf.column) :
  filter bucketized_or_crossed (filter identity_or_vocabulary l) = [].
Proof.
  induction l as [| c l IH]; simpl; [reflexivity |].
  destruct c; simpl; auto.
Qed.

(* ===================================================================== *)
(** ** Switching [use_wide_columns] off *)
(* ===================================================================== *)

(** On the sample table the identity-categorical descriptor of
    ['trip_start_hour'] is in the wide list with the flag on and is gone
    with the flag off. *)
Lemma C3_counterexample : ~ C3_claim taxi (mkArgs false false false).
Proof.
  intros H. destruct (H _ _ _ _ eq_refl eq_refl) as [_ Hstay].
  specialize (Hstay (IdentityCategoricalColumn "trip_start_hour" 24)).
  simpl in Hstay.
  assert (Hin : BucketizedColumn (NumericColumn "trip_miles" None)
                  [5; 10; 15; 20; 25; 30; 35; 40; 45; 50]
                = IdentityCategoricalColumn "trip_start_hour" 24
                \/ BucketizedColumn (NumericColumn "trip_seconds" None)
                     [900; 1800; 2700; 3600]
                   = IdentityCategoricalColumn "trip_start_hour" 24
                \/ CrossedColumn ["trip_miles"; "trip_seconds"] 10000
                   = IdentityCategoricalColumn "trip_start_hour" 24
                \/ False) by (apply Hstay; auto 6).
  intuition discriminate.
Qed.

(** C3, amended. Switching [use_wide_columns] from true to false removes
    from the wide list exactly the identity-categorical and
    vocabulary-categorical base descriptors, which are what the flag
    passes through to it; the bucketized and crossed descriptors are what
    remains, and the deep list does not change. *)
Theorem C3_wide_flag_removes_identity_and_vocabulary (md : metadata.t)
    (args : Args) (w1 d1 : list tf.column) :
  create_wide_and_deep_columns md (with_use_wide_columns true args)
  = Ok (w1, d1) ->
  exists fc w0,
    _create_feature_columns md = Ok fc /\
    create_wide_and_deep_columns md (with_use_wide_columns false args)
    = Ok (w0, d1) /\
    w1 = w0 ++ filter identity_or_vocabulary (values fc) /\
    w0 = filter bucketized_or_crossed w1.
Proof.
  intros H.
  destruct (create_wide_and_deep_columns_shape _ _ _ _ H)
    as (fc & tm & ts & co & Hfc & Hb & Htm & Hts & Hco & Hall).
  rewrite (Hall (with_use_wide_columns true args) (fun e => e)) in H. inv_Ok H.
  exists fc, (wide_of fc tm ts (with_use_wide_columns false args)).
  split; [exact Hfc |].
  split; [now rewrite (Hall (with_use_wide_columns false args) (fun e => e)) |].
  unfold wide_of. simpl. split; [reflexivity |].
  now rewrite filter_bucketized_or_crossed_nil.
Qed.

Lemma C3_wide_flag_removes_identity_and_vocabulary_witness :
  exists fc w0,
    _create_feature_columns taxi = Ok fc /\
    create_wide_and_deep_columns taxi
      (with_use_wide_columns false (mkArgs true true true))
    = Ok (w0, deep_of taxi_feature_columns
                (HashedCategoricalColumn "company" 1000)
                (mkArgs true true true)) /\
    wide_of taxi_feature_columns (NumericColumn "trip_miles" None)
      (NumericColumn "trip_seconds" None) (mkArgs true true true)
    = w0 ++ filter identity_or_vocabulary (values fc) /\
    w0 = filter bucketized_or_crossed
           (wide_of taxi_feature_columns (NumericColumn "trip_miles" None)
              (NumericColumn "trip_seconds" None) (mkArgs true true true)).
Proof.
  apply (C3_wide_flag_removes_identity_and_vocabulary taxi
           (mkArgs true true true)).
  reflexivity.
Defined.

(* ===================================================================== *)
(** ** Hashed-categorical descriptors *)
(* ===================================================================== *)

(** On the sample table ['company'] is hashed, and its embedding of
    dimension 10 heads the deep list although [use_indicator_columns] is
    off. *)
Lemma C10_counterexample : ~ C10_claim taxi (mkArgs false false true).
Proof.
  intros H. destruct (H _ _ eq_refl) as [_ Hd].
  destruct (Hd (EmbeddingColumn (HashedCategoricalColumn "company" 1000) 10))
    as [Hk _].
  - simpl. now left.
  - exists (HashedCategoricalColumn "company" 1000). split; reflexivity.
  - discriminate Hk.
Qed.

(** C10, amended. A hashed-categorical descriptor is never in the wide
    list nor in the deep list, whatever the flags.  A descriptor of the
    deep list built over a hashed-categorical one is either an indicator,
    present only under [use_indicator_columns], or the embedding of
    dimension 10 of the column stored under ['company'], which is built
    before the loop under every setting of the flags. *)
Theorem C10_hashed_only_through_indicator_or_company_embedding
    (md : metadata.t) (args : Args) (wide deep : list tf.column) :
  create_wide_and_deep_columns md args = Ok (wide, deep) ->
  (forall c, kind_of c = categorical_hashed -> ~ In c wide /\ ~ In c deep)
  /\
  (forall d, In d deep -> derived_from_hashed d ->
     (kind_of d = indicator /\ use_indicator_columns args = true)
     \/ (exists fc co,
           _create_feature_columns md = Ok fc /\
           get "company" fc = Some co /\ d = EmbeddingColumn co 10)).
Proof.
  intros H. split.
  - intros c Hc.
    apply create_wide_and_deep_columns_Ok in H as (fc & ext & _ & _ & -> & ->).
    split; intros Hin; apply filter_In in Hin as [_ Hin];
      destruct c; discriminate.
  - intros d Hin (c & Hsrc & Hc).
    destruct (create_wide_and_deep_columns_shape _ _ _ _ H)
      as (fc & tm & ts & co & Hfc & Hb & Htm & Hts & Hco & Hall).
    rewrite (Hall args (fun e => e)) in H. inv_Ok H.
    destruct Hin as [<- | Hin]; [right; exists fc, co; auto |].
    apply in_flat_map in Hin as (c' & Hc' & Hin).
    apply in_app_or in Hin as [Hin | Hin].
    + apply In_derived_part in Hin as [(n & -> & _ & Hiv) | [-> Hind]].
      * simpl in Hsrc. inv_Ok Hsrc. destruct c; discriminate.
      * left. auto.
    + destruct (base_dict_values fc c' Hb Hc') as (k & Hk).
      destruct Hk; simpl in Hin; try contradiction.
      destruct Hin as [<- | []]. discriminate.
Qed.

Lemma C10_hashed_only_through_indicator_or_company_embedding_witness :
  (forall c, kind_of c = categorical_hashed ->
     ~ In c (wide_of taxi_feature_columns (NumericColumn "trip_miles" None)
               (NumericColumn "trip_seconds" None) (mkArgs true true true))
     /\ ~ In c (deep_of taxi_feature_columns
                  (HashedCategoricalColumn "company" 1000)
                  (mkArgs true true true)))
  /\
  (forall d,
     In d (deep_of taxi_feature_columns
             (HashedCategoricalColumn "company" 1000) (mkArgs true true true)) ->
     derived_from_hashed d ->
     (kind_of d = indicator
      /\ use_indicator_columns (mkArgs true true true) = true)
     \/ (exists fc co,
           _create_feature_columns taxi = Ok fc /\
           get "company" fc = Some co /\ d = EmbeddingColumn co 10)).
Proof.
  apply (C10_hashed_only_through_indicator_or_company_embedding taxi
           (mkArgs true true true)).
  reflexivity.
Defined.

(* ===================================================================== *)
(** ** Which derived descriptors depend on a flag *)
(* ===================================================================== *)

(** With the three flags off the extended list of the sample table still
    starts with a bucketized descriptor. *)
Lemma C5_counterexample : ~ C5_claim taxi.
Proof.
  intros H.
  specialize (H (mkArgs false false false) _ _ eq_refl eq_refl
                (BucketizedColumn (NumericColumn "trip_miles" None)
                   [5; 10; 15; 20; 25; 30; 35; 40; 45; 50])).
  cbn in H. destruct H as [H | [H | H]]; [now left | | |]; discriminate H.
Qed.

(** C5, amended. The extended list always starts with the two bucketized
    descriptors, the cross of the two and the embedding of dimension 10 of
    ['company'], under every setting of the flags.  In the rest of the
    list an embedding occurs only under [embed_categorical_columns], an
    indicator only under [use_indicator_columns], and no bucketized or
    crossed descriptor occurs. *)
Theorem C5_loop_descriptors_gated_fixed_ones_not (md : metadata.t) (args : Args)
    (fc : dict tf.column) (extended : list tf.column) :
  _create_feature_columns md = Ok fc ->
  _extend_feature_columns fc args = Ok extended ->
  exists tm ts co rest,
    get "trip_miles" fc = Some tm /\ get "trip_seconds" fc = Some ts /\
    get "company" fc = Some co /\
    extended = fixed_columns tm ts co ++ rest /\
    forall c, In c rest ->
      (kind_of c = embedding -> embed_categorical_columns args = true) /\
      (kind_of c = indicator -> use_indicator_columns args = true) /\
      kind_of c <> bucketized /\ kind_of c <> crossed.
Proof.
  intros Hfc Hext.
  pose proof (_create_feature_columns_base md fc Hfc) as Hb.
  destruct (_extend_feature_columns_any_args fc args args extended Hb Hext
              (fun e => e))
    as (tm & ts & co & Htm & Hts & Hco & -> & _).
  exists tm, ts, co, (flat_map (contribution args) (values fc)).
  repeat (split; [assumption || reflexivity |]).
  intros c Hin. apply in_flat_map in Hin as (c' & Hc' & Hin).
  apply in_app_or in Hin as [Hin | Hin].
  - apply In_derived_part in Hin as [(n & -> & He & _) | [-> Hind]]; cbn;
      repeat split; auto; discriminate.
  - destruct (base_dict_values fc c' Hb Hc') as (k & Hk).
    unfold pass_through in Hin.
    destruct Hk; destruct (use_wide_columns args); simpl in Hin;
      try contradiction; destruct Hin as [<- | []]; cbn;
      repeat split; discriminate.
Qed.

Lemma C5_loop_descriptors_gated_fixed_ones_not_witness :
  exists tm ts co rest,
    get "trip_miles" taxi_feature_columns = Some tm /\
    get "trip_seconds" taxi_feature_columns = Some ts /\
    get "company" taxi_feature_columns = Some co /\
    [BucketizedColumn (NumericColumn "trip_miles" None)
       [5; 10; 15; 20; 25; 30; 35; 40; 45; 50];
     BucketizedColumn (NumericColumn "trip_seconds" None)
       [900; 1800; 2700; 3600];
     CrossedColumn ["trip_miles"; "trip_seconds"] 10000;
     EmbeddingColumn (HashedCategoricalColumn "company" 1000) 10;
     NumericColumn "trip_miles" None;
     NumericColumn "trip_seconds" None]
    = fixed_columns tm ts co ++ rest /\
    forall c, In c rest ->
      (kind_of c = embedding ->
       embed_categorical_columns (mkArgs false false false) = true) /\
      (kind_of c = indicator ->
       use_indicator_columns (mkArgs false false false) = true) /\
      kind_of c <> bucketized /\ kind_of c <> crossed.
Proof.
  apply (C5_loop_descriptors_gated_fixed_ones_not taxi
           (mkArgs false false false) taxi_feature_columns);
    reflexivity.
Defined.

(* ===================================================================== *)
(** ** Switching [embed_categorical_columns] on *)
(* ===================================================================== *)

(** The sample table has three categorical fields, one of them hashed;
    the flag adds two descriptors, not three. *)
Lemma C4_counterexample : ~ C4_claim taxi (mkArgs false false false).
Proof.
  intros H. specialize (H _ _ _ eq_refl eq_refl eq_refl).
  apply Permutation_length in H. discriminate H.
Qed.

Lemma column_embeds_size args c :
  identity_or_vocabulary c = true ->
  column_embeds args c -> embeds args (vocabulary_or_bucket_size c).
Proof. destruct c; try discriminate; auto. Qed.

Lemma contribution_with_embedding args c :
  column_embeds (with_embed_categorical_columns true args) c ->
  contribution (with_embed_categorical_columns true args) c
  = (if identity_or_vocabulary c then [embedding_of c] else [])
    ++ contribution (with_embed_categorical_columns false args) c.
Proof.
  intros Hemb.
  destruct c; try reflexivity;
    destruct (Hemb eq_refl) as (d & Hd & _);
    unfold contribution, derived_part, embedding_part, loop_embedding,
      embedding_of;
    simpl; rewrite Hd; reflexivity.
Qed.

Lemma flat_map_if_map {A B : Type} (p : A -> bool) (f : A -> B) (l : list A) :
  flat_map (fun c => if p c then [f c] else []) l = map f (filter p l).
Proof.
  induction l as [| a l IH]; simpl; [reflexivity |].
  rewrite IH. now destruct (p a).
Qed.

Lemma Permutation_flat_map_app {A B : Type} (f g : A -> list B) (l : list A) :
  Permutation (flat_map (fun x => f x ++ g x) l) (flat_map g l ++ flat_map f l).
Proof.
  induction l as [| a l IH]; simpl; [constructor |].
  rewrite IH, <- !app_assoc.
  rewrite Permutation_app_swap_app. apply Permutation_app_head.
  apply Permutation_app_swap_app.
Qed.

(** C4, amended. With [embed_categorical_columns] on, the extended list
    holds, beyond what it holds with the flag off, exactly one embedding
    for each identity-categorical and each vocabulary-categorical field.
    Its dimension is the value [math.ceil(math.sqrt(s))] computes in
    double precision for the field's bucket count or vocabulary size [s];
    for [s] below [2^52] that is [ceil(sqrt(s))], the least [d] with
    [s <= d * d].  The flag adds nothing for a hashed-categorical field. *)
Theorem C4_embedding_per_identity_and_vocabulary_field (md : metadata.t)
    (args : Args) (fc : dict tf.column) (ext0 ext1 : list tf.column) :
  _create_feature_columns md = Ok fc ->
  _extend_feature_columns fc (with_embed_categorical_columns false args)
  = Ok ext0 ->
  _extend_feature_columns fc (with_embed_categorical_columns true args)
  = Ok ext1 ->
  Permutation ext1
    (ext0 ++ map embedding_of (filter identity_or_vocabulary (values fc)))
  /\
  (forall c, In c (filter identity_or_vocabulary (values fc)) ->
     let s := vocabulary_or_bucket_size c in
     exists d,
       math.ceil_sqrt s = Ok d /\
       embedding_of c = EmbeddingColumn c d /\
       1 <= s /\ 1 <= d /\
       (s < 2 ^ 52 -> (d - 1) * (d - 1) < s <= d * d)).
Proof.
  intros Hfc H0 H1.
  pose proof (_create_feature_columns_base md fc Hfc) as Hb.
  pose proof (_extend_feature_columns_embeds fc _ ext1 (proj1 Hb) H1) as Hemb.
  destruct (_extend_feature_columns_any_args fc _
              (with_embed_categorical_columns false args) ext1 Hb H1
              (fun _ => eq_refl))
    as (tm & ts & co & Htm & Hts & Hco & -> & H0').
  assert (ext0 = fixed_columns tm ts co
                 ++ flat_map
                      (contribution (with_embed_categorical_columns false args))
                      (values fc)) as -> by congruence.
  split.
  - rewrite <- app_assoc. apply Permutation_app_head.
    rewrite <- flat_map_if_map.
    rewrite (flat_map_ext_In _
               (fun c => (if identity_or_vocabulary c then [embedding_of c]
                          else [])
                         ++ contribution
                              (with_embed_categorical_columns false args) c)).
    + apply (Permutation_flat_map_app
               (fun c => if identity_or_vocabulary c then [embedding_of c]
                         else [])).
    + intros c Hc. apply contribution_with_embedding.
      exact (proj1 (Forall_forall _ _) Hemb c Hc).
  - intros c Hin. apply filter_In in Hin as [Hin Hiv]. cbv zeta.
    destruct (base_dict_values fc c Hb Hin) as (k & Hk).
    assert (1 <= vocabulary_or_bucket_size c) as Hs
      by (destruct Hk; simpl in *; try discriminate; lia).
    pose proof (proj1 (Forall_forall _ _) Hemb c Hin) as Hc.
    destruct (column_embeds_size _ c Hiv Hc eq_refl) as (d & Hd & Hd1).
    exists d. split; [exact Hd |].
    split; [unfold embedding_of; now rewrite Hd |].
    split; [exact Hs |]. split; [exact Hd1 |].
    intros Hlt. rewrite ceil_sqrt_exact_range in Hd by lia.
    injection Hd as <-. now apply ceil_sqrt_exact_spec.
Qed.

Lemma C4_embedding_per_identity_and_vocabulary_field_witness :
  Permutation
    (fixed_columns (NumericColumn "trip_miles" None)
       (NumericColumn "trip_seconds" None)
       (HashedCategoricalColumn "company" 1000)
     ++ flat_map (contribution (mkArgs true false false))
          (values taxi_feature_columns))
    ((fixed_columns (NumericColumn "trip_miles" None)
        (NumericColumn "trip_seconds" None)
        (HashedCategoricalColumn "company" 1000)
      ++ flat_map (contribution (mkArgs false false false))
           (values taxi_feature_columns))
     ++ map embedding_of
          (filter identity_or_vocabulary (values taxi_feature_columns)))
  /\
  (forall c,
     In c (filter identity_or_vocabulary (values taxi_feature_columns)) ->
     let s := vocabulary_or_bucket_size c in
     exists d,
       math.ceil_sqrt s = Ok d /\
       embedding_of c = EmbeddingColumn c d /\
       1 <= s /\ 1 <= d /\
       (s < 2 ^ 52 -> (d - 1) * (d - 1) < s <= d * d)).
Proof.
  apply (C4_embedding_per_identity_and_vocabulary_field taxi
           (mkArgs false false false) taxi_feature_columns);
    vm_compute; reflexivity.
Defined.

(* ===================================================================== *)
(** ** Normalization of the numeric descriptors *)
(* ===================================================================== *)

(** The normalizer of the code does not depend on the field: it is there
    exactly when the stats table has fields called ['mean'] and ['var'],
    and then it captures those two entries. *)
Lemma numeric_normalizer_fn_spec md :
  numeric_normalizer_fn md
  = Ok match get "mean" (metadata.NUMERIC_FEATURE_NAMES_WITH_STATS md),
             get "var" (metadata.NUMERIC_FEATURE_NAMES_WITH_STATS md) with
       | Some mean, Some variance => Some (z_score mean variance)
       | _, _ => None
       end.
Proof.
  unfold numeric_normalizer_fn, getitem.
  destruct (get "mean" _); simpl; [| reflexivity].
  destruct (get "var" _); reflexivity.
Qed.

(** C1, at a table where the claim fails. ['trip_miles'] has a mean (3) and
    a variance (4) in the metadata, so its descriptor should carry the
    z-score normalizer of the two; [_create_feature_columns] returns it
    with no normalizer, because it looks for ['mean'] and ['var'] among
    the field names of the table and catches the [KeyError]. *)
Theorem C1_normalizer_missing_despite_statistics :
  documented_normalizer taxi "trip_miles" = Some (3 # 1, 4 # 1)%Q /\
  exists fc,
    _create_feature_columns taxi = Ok fc /\
    get "trip_miles" fc = Some (NumericColumn "trip_miles" None).
Proof.
  split; [reflexivity |]. exists taxi_feature_columns. split; reflexivity.
Qed.

(** The converse slip: in a table with fields called ['mean'] and ['var']
    every numeric descriptor gets a normalizer, also a field that has no
    statistics at all. *)
Example normalizer_without_statistics :
  let md := {| metadata.NUMERIC_FEATURE_NAMES_WITH_STATS :=
                 [("mean", []); ("var", []); ("fare", [])];
               metadata.CATEGORICAL_FEATURE_NAMES_WITH_IDENTITY := [];
               metadata.CATEGORICAL_FEATURE_NAMES_WITH_VOCABULARY := [];
               metadata.CATEGORICAL_FEATURE_NAMES_WITH_HASH_BUCKET := [] |} in
  documented_normalizer md "fare" = None /\
  exists fc,
    _create_feature_columns md = Ok fc /\
    get "fare" fc = Some (NumericColumn "fare" (Some (z_score [] []))).
Proof.
  split; [reflexivity |]. eexists. split; reflexivity.
Qed.

(* ===================================================================== *)
(** ** The two lists against the extended list *)
(* ===================================================================== *)

Lemma sparse_dense_disjoint c : is_sparse c = true -> is_dense c = true -> False.
Proof. destruct c; discriminate. Qed.

(** Only a hashed-categorical descriptor is in neither list. *)
Lemma sparse_or_dense_unless_hashed c :
  kind_of c <> categorical_hashed -> is_sparse c = true \/ is_dense c = true.
Proof. destruct c; cbn; auto; intros H; now contradiction H. Qed.

(** C2, at a table where the claim fails. With [use_wide_columns] on, the
    hashed-categorical descriptor of ['company'] is passed through into
    the extended list, and [_get_sparse_and_dense_columns] puts it in
    neither the wide nor the deep list. *)
Theorem C2_hashed_descriptor_in_neither_list :
  let args := mkArgs false false true in
  let company := HashedCategoricalColumn "company" 1000 in
  exists fc extended wide deep,
    _create_feature_columns taxi = Ok fc /\
    _extend_feature_columns fc args = Ok extended /\
    create_wide_and_deep_columns taxi args = Ok (wide, deep) /\
    In company extended /\ ~ In company wide /\ ~ In company deep.
Proof.
  cbv zeta. do 4 eexists.
  split; [reflexivity |]. split; [reflexivity |]. split; [reflexivity |].
  split; [simpl; auto 12 |].
  split; simpl; intuition discriminate.
Qed.

(* ===================================================================== *)
(** ** Assignment and look-up in a dictionary *)
(* ===================================================================== *)

Lemma get_setitem_eq {V : Type} (k : string) (v : V) (d : dict V) :
  get k (setitem k v d) = Some v.
Proof.
  induction d as [| [k' v'] d IH]; simpl.
  - now rewrite String.eqb_refl.
  - destruct (String.eqb_spec k k') as [-> | Hne]; simpl.
    + now rewrite String.eqb_refl.
    + destruct (String.eqb_spec k k'); [contradiction | exact IH].
Qed.

Lemma get_setitem_neq {V : Type} (k k' : string) (v : V) (d : dict V) :
  k <> k' -> get k' (setitem k v d) = get k' d.
Proof.
  intros Hne. induction d as [| [k0 v0] d IH]; simpl.
  - destruct (String.eqb_spec k' k); [congruence | reflexivity].
  - destruct (String.eqb_spec k k0) as [-> | Hne0]; simpl.
    + destruct (String.eqb_spec k' k0); [congruence | reflexivity].
    + now rewrite IH.
Qed.

Lemma get_None_keys {V : Type} (k : string) (d : dict V) :
  get k d = None <-> ~ In k (keys d).
Proof.
  split.
  - intros Hget Hin. apply In_keys_get in Hin as (v & Hv & _). congruence.
  - intros Hnin. destruct (get k d) eqn:E; [| reflexivity].
    exfalso. apply Hnin. eapply get_In_keys. exact E.
Qed.

Lemma setitem_absent {V : Type} (k : string) (v : V) (d : dict V) :
  ~ In k (keys d) -> setitem k v d = d ++ [(k, v)].
Proof.
  induction d as [| [k' v'] d IH]; simpl; intros Hnin; [reflexivity |].
  destruct (String.eqb_spec k k') as [-> | Hne].
  - exfalso. apply Hnin. now left.
  - f_equal. apply IH. intros Hin. apply Hnin. now right.
Qed.

Lemma bind_ext {A B : Type} (m m' : result A) (k k' : A -> result B) :
  m = m' -> (forall a, k a = k' a) -> Py.bind m k = Py.bind m' k'.
Proof. intros -> Hk. destruct m'; simpl; auto. Qed.

(* ===================================================================== *)
(** ** A loop that stores one column per name *)
(* ===================================================================== *)

Section StoreLoop.
Variable mk : string -> result tf.column.

Lemma store_Ok fc name fc' :
  store mk fc name = Ok fc' ->
  exists c, mk name = Ok c /\ fc' = setitem name c fc.
Proof.
  unfold store. intros H. inv_bind H as c Hc. inv_Ok H. eauto.
Qed.

Lemma store_loop_get ks :
  forall fc0 fc1, for_each ks (store mk) fc0 = Ok fc1 ->
  forall name,
    (In name ks -> exists c, mk name = Ok c /\ get name fc1 = Some c) /\
    (~ In name ks -> get name fc1 = get name fc0).
Proof.
  induction ks as [| k ks IH]; simpl; intros fc0 fc1 H name.
  - inv_Ok H. split; [contradiction | reflexivity].
  - inv_bind H as fc' Hs. apply store_Ok in Hs as (c & Hc & ->).
    destruct (IH _ _ H name) as [Hin Hout].
    destruct (in_dec string_dec name ks) as [Hks | Hks].
    + split; [auto | intros Hn; exfalso; apply Hn; now right].
    + split.
      * intros [-> | Hin']; [| contradiction].
        exists c. split; [exact Hc |].
        rewrite (Hout Hks). apply get_setitem_eq.
      * intros Hn. rewrite (Hout Hks). apply get_setitem_neq.
        intros ->. apply Hn. now left.
Qed.

Lemma store_loop_append {V : Type} (entry : string * V -> tf.column)
    (l : list (string * V)) :
  forall fc0 fc1,
    NoDup (map fst l) ->
    (forall k, In k (map fst l) -> ~ In k (keys fc0)) ->
    (forall kv c, In kv l -> mk (fst kv) = Ok c -> c = entry kv) ->
    for_each (map fst l) (store mk) fc0 = Ok fc1 ->
    fc1 = fc0 ++ map (fun kv => (fst kv, entry kv)) l.
Proof.
  induction l as [| [k v] l IH]; simpl; intros fc0 fc1 Hnd Hfresh Hentry H.
  - inv_Ok H. now rewrite app_nil_r.
  - inv_bind H as fc' Hs. apply store_Ok in Hs as (c & Hc & ->).
    inversion Hnd as [| ? ? Hk Hnd']; subst.
    rewrite (Hentry (k, v) c (or_introl eq_refl) Hc) in H.
    rewrite setitem_absent in H by (apply Hfresh; now left).
    apply IH in H; [| exact Hnd' | | intros kv c' Hin; apply Hentry; now right].
    + rewrite H, <- app_assoc. reflexivity.
    + intros k' Hk' Hin. unfold keys in Hin. rewrite map_app in Hin.
      apply in_app_or in Hin as [Hin | [<- | []]].
      * apply (Hfresh k'); [now right | exact Hin].
      * contradiction.
Qed.

End StoreLoop.

(** [_create_feature_columns] as four loops of [store]. *)
Lemma _create_feature_columns_loops md :
  _create_feature_columns md
  = (fc1 <- for_each (keys (metadata.NUMERIC_FEATURE_NAMES_WITH_STATS md))
              (store (make_numeric md)) [] ;;
     fc2 <- for_each (keys (metadata.CATEGORICAL_FEATURE_NAMES_WITH_IDENTITY md))
              (store (make_identity md)) fc1 ;;
     fc3 <- for_each (keys (metadata.CATEGORICAL_FEATURE_NAMES_WITH_VOCABULARY md))
              (store (make_vocabulary md)) fc2 ;;
     for_each (keys (metadata.CATEGORICAL_FEATURE_NAMES_WITH_HASH_BUCKET md))
       (store (make_hashed md)) fc3).
Proof.
  unfold _create_feature_columns.
  apply bind_ext.
  { apply for_each_ext. intros fc name. unfold store, make_numeric.
    destruct (numeric_normalizer_fn md); reflexivity. }
  intros fc1. apply bind_ext.
  { apply for_each_ext. intros fc name. unfold store, make_identity.
    destruct (getitem name _); simpl; reflexivity. }
  intros fc2. apply bind_ext.
  { apply for_each_ext. intros fc name. unfold store, make_vocabulary.
    destruct (getitem name _); simpl; reflexivity. }
  intros fc3.
  apply for_each_ext. intros fc name. unfold store, make_hashed.
  destruct (getitem name _); simpl; reflexivity.
Qed.

Lemma make_numeric_Ok md name :
  make_numeric md name = Ok (NumericColumn name (shared_normalizer md)).
Proof.
  unfold make_numeric. rewrite numeric_normalizer_fn_spec. reflexivity.
Qed.

Lemma make_identity_Ok md name c :
  make_identity md name = Ok c ->
  exists n,
    get name (metadata.CATEGORICAL_FEATURE_NAMES_WITH_IDENTITY md) = Some n /\
    c = IdentityCategoricalColumn name n.
Proof.
  unfold make_identity. intros H. inv_bind H as n Hn.
  apply getitem_Ok in Hn.
  apply categorical_column_with_identity_Ok in H as [-> _]. eauto.
Qed.

Lemma make_vocabulary_Ok md name c :
  make_vocabulary md name = Ok c ->
  exists l,
    get name (metadata.CATEGORICAL_FEATURE_NAMES_WITH_VOCABULARY md) = Some l /\
    c = VocabularyListCategoricalColumn name l.
Proof.
  unfold make_vocabulary. intros H. inv_bind H as l Hl.
  apply getitem_Ok in Hl.
  apply categorical_column_with_vocabulary_list_Ok in H as [-> _]. eauto.
Qed.

Lemma make_hashed_Ok md name c :
  make_hashed md name = Ok c ->
  exists n,
    get name (metadata.CATEGORICAL_FEATURE_NAMES_WITH_HASH_BUCKET md) = Some n /\
    c = HashedCategoricalColumn name n.
Proof.
  unfold make_hashed. intros H. inv_bind H as n Hn.
  apply getitem_Ok in Hn.
  apply categorical_column_with_hash_bucket_Ok in H as [-> _]. eauto.
Qed.

Lemma _create_feature_columns_Ok md fc :
  _create_feature_columns md = Ok fc ->
  exists fc1 fc2 fc3,
    for_each (keys (metadata.NUMERIC_FEATURE_NAMES_WITH_STATS md))
      (store (make_numeric md)) [] = Ok fc1 /\
    for_each (keys (metadata.CATEGORICAL_FEATURE_NAMES_WITH_IDENTITY md))
      (store (make_identity md)) fc1 = Ok fc2 /\
    for_each (keys (metadata.CATEGORICAL_FEATURE_NAMES_WITH_VOCABULARY md))
      (store (make_vocabulary md)) fc2 = Ok fc3 /\
    for_each (keys (metadata.CATEGORICAL_FEATURE_NAMES_WITH_HASH_BUCKET md))
      (store (make_hashed md)) fc3 = Ok fc.
Proof.
  rewrite _create_feature_columns_loops. intros H.
  inv_bind H as fc1 H1. inv_bind H as fc2 H2. inv_bind H as fc3 H3.
  exists fc1, fc2, fc3. auto.
Qed.

(** The column found under a name comes from the last of the four tables,
    in the order numeric, identity, vocabulary, hash bucket, that lists
    the name. *)
Lemma _create_feature_columns_lookup md fc :
  _create_feature_columns md = Ok fc ->
  forall name,
    let in_num := In name (keys (metadata.NUMERIC_FEATURE_NAMES_WITH_STATS md)) in
    let in_id := In name (keys (metadata.CATEGORICAL_FEATURE_NAMES_WITH_IDENTITY md)) in
    let in_voc := In name (keys (metadata.CATEGORICAL_FEATURE_NAMES_WITH_VOCABULARY md)) in
    let in_hash := In name (keys (metadata.CATEGORICAL_FEATURE_NAMES_WITH_HASH_BUCKET md)) in
    (in_hash ->
     exists n,
       get name (metadata.CATEGORICAL_FEATURE_NAMES_WITH_HASH_BUCKET md) = Some n /\
       get name fc = Some (HashedCategoricalColumn name n)) /\
    (~ in_hash -> in_voc ->
     exists l,
       get name (metadata.CATEGORICAL_FEATURE_NAMES_WITH_VOCABULARY md) = Some l /\
       get name fc = Some (VocabularyListCategoricalColumn name l)) /\
    (~ in_hash -> ~ in_voc -> in_id ->
     exists n,
       get name (metadata.CATEGORICAL_FEATURE_NAMES_WITH_IDENTITY md) = Some n /\
       get name fc = Some (IdentityCategoricalColumn name n)) /\
    (~ in_hash -> ~ in_voc -> ~ in_id -> in_num ->
     get name fc = Some (NumericColumn name (shared_normalizer md))) /\
    (~ in_hash -> ~ in_voc -> ~ in_id -> ~ in_num -> get name fc = None).
Proof.
  intros H name. cbv zeta.
  apply _create_feature_columns_Ok in H as (fc1 & fc2 & fc3 & H1 & H2 & H3 & H4).
  destruct (store_loop_get _ _ _ _ H1 name) as [I1 O1].
  destruct (store_loop_get _ _ _ _ H2 name) as [I2 O2].
  destruct (store_loop_get _ _ _ _ H3 name) as [I3 O3].
  destruct (store_loop_get _ _ _ _ H4 name) as [I4 O4].
  repeat split.
  - intros Hin. destruct (I4 Hin) as (c & Hc & Hget).
    apply make_hashed_Ok in Hc as (n & Hn & ->). eauto.
  - intros Hh Hin. destruct (I3 Hin) as (c & Hc & Hget).
    apply make_vocabulary_Ok in Hc as (l & Hl & ->).
    exists l. split; [exact Hl |]. now rewrite (O4 Hh).
  - intros Hh Hv Hin. destruct (I2 Hin) as (c & Hc & Hget).
    apply make_identity_Ok in Hc as (n & Hn & ->).
    exists n. split; [exact Hn |]. now rewrite (O4 Hh), (O3 Hv).
  - intros Hh Hv Hi Hin. destruct (I1 Hin) as (c & Hc & Hget).
    rewrite make_numeric_Ok in Hc. inv_Ok Hc.
    now rewrite (O4 Hh), (O3 Hv), (O2 Hi).
  - intros Hh Hv Hi Hn.
    now rewrite (O4 Hh), (O3 Hv), (O2 Hi), (O1 Hn).
Qed.

Lemma NoDup_app_inv {A : Type} (l l' : list A) :
  NoDup (l ++ l') ->
  NoDup l /\ NoDup l' /\ forall x, In x l -> ~ In x l'.
Proof.
  induction l as [| a l IH]; simpl; intros H.
  - repeat split; [constructor | exact H | intros x []].
  - inversion H as [| ? ? Ha Hnd]; subst.
    destruct (IH Hnd) as (Hl & Hl' & Hdis). repeat split.
    + constructor; [| exact Hl]. intros Hin. apply Ha, in_or_app. now left.
    + exact Hl'.
    + intros x [<- | Hx]; [| now apply Hdis].
      intros Hin. apply Ha, in_or_app. now right.
Qed.

Lemma keys_app {V : Type} (d d' : dict V) : keys (d ++ d') = keys d ++ keys d'.
Proof. unfold keys. apply map_app. Qed.

Lemma keys_entries {V : Type} (f : string * V -> tf.column) (l : dict V) :
  keys (map (fun kv => (fst kv, f kv)) l) = keys l.
Proof. unfold keys. rewrite map_map. reflexivity. Qed.

(* ===================================================================== *)
(** ** The dictionary built by [_create_feature_columns] *)
(* ===================================================================== *)

(** X1. In the dictionary returned by [_create_feature_columns] no name
    occurs twice, and the column found under a name is a numeric,
    identity, vocabulary or hash bucket column whose own key is that name,
    with a bucket count or hash size of at least one or a vocabulary that
    is not empty. *)
Theorem X1_created_columns_are_base_columns_under_their_name
    (md : metadata.t) (fc : dict tf.column) :
  _create_feature_columns md = Ok fc ->
  NoDup (keys fc) /\
  (forall name c, get name fc = Some c -> base_column name c).
Proof.
  intros H. destruct (_create_feature_columns_base md fc H) as [Hnd Hb].
  split; [exact Hnd |]. intros name c Hget. apply Hb. now apply get_In.
Qed.

Lemma X1_created_columns_are_base_columns_under_their_name_witness :
  NoDup (keys taxi_feature_columns) /\
  (forall name c, get name taxi_feature_columns = Some c -> base_column name c).
Proof.
  apply (X1_created_columns_are_base_columns_under_their_name taxi).
  reflexivity.
Defined.

Lemma _create_feature_columns_keys (md : metadata.t)
    (fc : dict tf.column) (name : string) :
  _create_feature_columns md = Ok fc ->
  (In name (keys fc) <-> In name (field_names md)).
Proof.
  intros H.
  destruct (_create_feature_columns_lookup md fc H name)
    as (Hh & Hv & Hi & Hn & Hnone).
  unfold field_names.
  destruct (in_dec string_dec name
              (keys (metadata.CATEGORICAL_FEATURE_NAMES_WITH_HASH_BUCKET md)))
    as [Ih | Ih].
  { destruct (Hh Ih) as (n & _ & Hget). split; intros _.
    - rewrite !in_app_iff. auto.
    - eapply get_In_keys. exact Hget. }
  destruct (in_dec string_dec name
              (keys (metadata.CATEGORICAL_FEATURE_NAMES_WITH_VOCABULARY md)))
    as [Iv | Iv].
  { destruct (Hv Ih Iv) as (l & _ & Hget). split; intros _.
    - rewrite !in_app_iff. auto.
    - eapply get_In_keys. exact Hget. }
  destruct (in_dec string_dec name
              (keys (metadata.CATEGORICAL_FEATURE_NAMES_WITH_IDENTITY md)))
    as [Ii | Ii].
  { destruct (Hi Ih Iv Ii) as (n & _ & Hget). split; intros _.
    - rewrite !in_app_iff. auto.
    - eapply get_In_keys. exact Hget. }
  destruct (in_dec string_dec name
              (keys (metadata.NUMERIC_FEATURE_NAMES_WITH_STATS md)))
    as [In_ | In_].
  { pose proof (Hn Ih Iv Ii In_) as Hget. split; intros _.
    - rewrite !in_app_iff. auto.
    - eapply get_In_keys. exact Hget. }
  pose proof (Hnone Ih Iv Ii In_) as Hget. apply get_None_keys in Hget.
  split; intros Hin; [contradiction |].
  rewrite !in_app_iff in Hin. tauto.
Qed.

(** X2. The names of the dictionary returned by [_create_feature_columns]
    are exactly the field names listed in the four metadata tables. *)
Theorem X2_created_names_are_the_field_names (md : metadata.t)
    (fc : dict tf.column) (name : string) :
  _create_feature_columns md = Ok fc ->
  (In name (keys fc) <-> In name (field_names md)).
Proof. apply _create_feature_columns_keys. Qed.

Lemma X2_created_names_are_the_field_names_witness :
  In "company" (keys taxi_feature_columns) <-> In "company" (field_names taxi).
Proof.
  apply (X2_created_names_are_the_field_names taxi). reflexivity.
Defined.

(** X3. When a name is listed in several metadata tables, the column
    [_create_feature_columns] returns under it is the one of the last
    table that lists it, in the order numeric, identity, vocabulary, hash
    bucket: each loop overwrites what the loops before it stored. *)
Theorem X3_last_table_wins (md : metadata.t) (fc : dict tf.column)
    (name : string) :
  _create_feature_columns md = Ok fc ->
  (In name (keys (metadata.CATEGORICAL_FEATURE_NAMES_WITH_HASH_BUCKET md)) ->
   exists n,
     get name (metadata.CATEGORICAL_FEATURE_NAMES_WITH_HASH_BUCKET md) = Some n /\
     get name fc = Some (HashedCategoricalColumn name n))
  /\
  (~ In name (keys (metadata.CATEGORICAL_FEATURE_NAMES_WITH_HASH_BUCKET md)) ->
   In name (keys (metadata.CATEGORICAL_FEATURE_NAMES_WITH_VOCABULARY md)) ->
   exists l,
     get name (metadata.CATEGORICAL_FEATURE_NAMES_WITH_VOCABULARY md) = Some l /\
     get name fc = Some (VocabularyListCategoricalColumn name l))
  /\
  (~ In name (keys (metadata.CATEGORICAL_FEATURE_NAMES_WITH_HASH_BUCKET md)) ->
   ~ In name (keys (metadata.CATEGORICAL_FEATURE_NAMES_WITH_VOCABULARY md)) ->
   In name (keys (metadata.CATEGORICAL_FEATURE_NAMES_WITH_IDENTITY md)) ->
   exists n,
     get name (metadata.CATEGORICAL_FEATURE_NAMES_WITH_IDENTITY md) = Some n /\
     get name fc = Some (IdentityCategoricalColumn name n))
  /\
  (~ In name (keys (metadata.CATEGORICAL_FEATURE_NAMES_WITH_HASH_BUCKET md)) ->
   ~ In name (keys (metadata.CATEGORICAL_FEATURE_NAMES_WITH_VOCABULARY md)) ->
   ~ In name (keys (metadata.CATEGORICAL_FEATURE_NAMES_WITH_IDENTITY md)) ->
   In name (keys (metadata.NUMERIC_FEATURE_NAMES_WITH_STATS md)) ->
   exists normalizer_fn,
     get name fc = Some (NumericColumn name normalizer_fn)).
Proof.
  intros H.
  destruct (_create_feature_columns_lookup md fc H name)
    as (Hh & Hv & Hi & Hn & _).
  repeat split; try assumption.
  intros Ih Iv Ii In_. eexists. apply Hn; assumption.
Qed.

Lemma X3_last_table_wins_witness :
  get "fare" [("fare", HashedCategoricalColumn "fare" 10);
              ("tips", NumericColumn "tips" None)]
  = Some (HashedCategoricalColumn "fare" 10).
Proof.
  destruct (X3_last_table_wins overlapping
              [("fare", HashedCategoricalColumn "fare" 10);
               ("tips", NumericColumn "tips" None)]
              "fare" eq_refl) as [Hhash _].
  destruct (Hhash (or_introl eq_refl)) as (n & Hn & Hget).
  injection Hn as <-. exact Hget.
Defined.

(** X4. When no field name is listed twice in the metadata, the
    dictionary returned by [_create_feature_columns] lists the numeric
    fields first, then the identity, the vocabulary and the hash bucket
    fields, each table in its own order, every field under its name with
    the column of its table. *)
Theorem X4_created_dictionary_follows_the_tables (md : metadata.t)
    (fc : dict tf.column) :
  NoDup (field_names md) ->
  _create_feature_columns md = Ok fc ->
  fc = numeric_entries md ++ identity_entries md
       ++ vocabulary_entries md ++ hashed_entries md.
Proof.
  unfold field_names. intros Hnd H.
  apply _create_feature_columns_Ok in H as (fc1 & fc2 & fc3 & H1 & H2 & H3 & H4).
  apply NoDup_app_inv in Hnd as (Nn & Hnd & Dn).
  apply NoDup_app_inv in Hnd as (Ni & Hnd & Di).
  apply NoDup_app_inv in Hnd as (Nv & Nh & Dv).
  apply (store_loop_append _
           (fun kv : string * metadata.stats =>
              NumericColumn (fst kv) (shared_normalizer md))) in H1;
    [| exact Nn | intros k _ []
     | intros kv c _ Hc; rewrite make_numeric_Ok in Hc; now inv_Ok Hc].
  simpl in H1. fold (numeric_entries md) in H1. subst fc1.
  apply (store_loop_append _
           (fun kv : string * Z => IdentityCategoricalColumn (fst kv) (snd kv)))
    in H2; [| exact Ni | |].
  2:{ intros k Hk Hin. unfold numeric_entries in Hin.
      rewrite keys_entries in Hin. apply (Dn k Hin).
      apply in_or_app. now left. }
  2:{ intros [k v] c Hin Hc. apply make_identity_Ok in Hc as (n & Hn & ->).
      simpl in *. rewrite (In_get k v _ Ni Hin) in Hn. now inv_Ok Hn. }
  fold (identity_entries md) in H2. subst fc2.
  apply (store_loop_append _
           (fun kv : string * list string =>
              VocabularyListCategoricalColumn (fst kv) (snd kv)))
    in H3; [| exact Nv | |].
  2:{ intros k Hk Hin. rewrite keys_app in Hin.
      unfold numeric_entries, identity_entries in Hin.
      rewrite !keys_entries in Hin. apply in_app_or in Hin as [Hin | Hin].
      - apply (Dn k Hin). apply in_or_app. right. apply in_or_app. now left.
      - apply (Di k Hin). apply in_or_app. now left. }
  2:{ intros [k v] c Hin Hc. apply make_vocabulary_Ok in Hc as (l & Hl & ->).
      simpl in *. rewrite (In_get k v _ Nv Hin) in Hl. now inv_Ok Hl. }
  fold (vocabulary_entries md) in H3. subst fc3.
  apply (store_loop_append _
           (fun kv : string * Z => HashedCategoricalColumn (fst kv) (snd kv)))
    in H4; [| exact Nh | |].
  2:{ intros k Hk Hin. rewrite !keys_app in Hin.
      unfold numeric_entries, identity_entries, vocabulary_entries in Hin.
      rewrite !keys_entries in Hin.
      apply in_app_or in Hin as [Hin | Hin];
        [apply in_app_or in Hin as [Hin | Hin] |].
      - apply (Dn k Hin). apply in_or_app. right. apply in_or_app. now right.
      - apply (Di k Hin). apply in_or_app. now right.
      - apply (Dv k Hin). exact Hk. }
  2:{ intros [k v] c Hin Hc. apply make_hashed_Ok in Hc as (n & Hn & ->).
      simpl in *. rewrite (In_get k v _ Nh Hin) in Hn. now inv_Ok Hn. }
  fold (hashed_entries md) in H4. subst fc.
  now rewrite <- !app_assoc.
Qed.

Lemma NoDup_field_names_taxi : NoDup (field_names taxi).
Proof.
  repeat constructor; simpl; intuition discriminate.
Defined.

Lemma X4_created_dictionary_follows_the_tables_witness :
  taxi_feature_columns
  = numeric_entries taxi ++ identity_entries taxi
    ++ vocabulary_entries taxi ++ hashed_entries taxi.
Proof.
  apply (X4_created_dictionary_follows_the_tables taxi).
  - exact NoDup_field_names_taxi.
  - reflexivity.
Defined.

(** X5. Every numeric column of the dictionary returned by
    [_create_feature_columns] carries the same [normalizer_fn]: the
    closure over the entries the stats table holds under ['mean'] and
    ['var'] when it has both names, and [None] otherwise.  It does not
    depend on the field the column is built for. *)
Theorem X5_numeric_columns_share_one_normalizer (md : metadata.t)
    (fc : dict tf.column) (name key : string) (normalizer_fn : option normalizer) :
  _create_feature_columns md = Ok fc ->
  get name fc = Some (NumericColumn key normalizer_fn) ->
  normalizer_fn = shared_normalizer md.
Proof.
  intros H Hget.
  destruct (_create_feature_columns_lookup md fc H name)
    as (Hh & Hv & Hi & Hn & Hnone).
  destruct (in_dec string_dec name
              (keys (metadata.CATEGORICAL_FEATURE_NAMES_WITH_HASH_BUCKET md)))
    as [Ih | Ih].
  { destruct (Hh Ih) as (n & _ & Hget'). congruence. }
  destruct (in_dec string_dec name
              (keys (metadata.CATEGORICAL_FEATURE_NAMES_WITH_VOCABULARY md)))
    as [Iv | Iv].
  { destruct (Hv Ih Iv) as (l & _ & Hget'). congruence. }
  destruct (in_dec string_dec name
              (keys (metadata.CATEGORICAL_FEATURE_NAMES_WITH_IDENTITY md)))
    as [Ii | Ii].
  { destruct (Hi Ih Iv Ii) as (n & _ & Hget'). congruence. }
  destruct (in_dec string_dec name
              (keys (metadata.NUMERIC_FEATURE_NAMES_WITH_STATS md)))
    as [In_ | In_].
  - pose proof (Hn Ih Iv Ii In_) as Hget'. congruence.
  - pose proof (Hnone Ih Iv Ii In_) as Hget'. congruence.
Qed.

Lemma X5_numeric_columns_share_one_normalizer_witness :
  @None normalizer = shared_normalizer taxi.
Proof.
  apply (X5_numeric_columns_share_one_normalizer taxi taxi_feature_columns
           "trip_seconds" "trip_seconds" None);
    reflexivity.
Defined.

(** X6. [_create_feature_columns] raises nothing when every bucket count
    and hash bucket size of the metadata is at least one and every
    vocabulary is non-empty and free of duplicates; in particular the
    look-up of a table under one of its own names never fails. *)
Theorem X6_create_returns_on_valid_metadata (md : metadata.t) :
  valid_metadata md -> exists fc, _create_feature_columns md = Ok fc.
Proof. apply _create_feature_columns_returns. Qed.

Lemma valid_metadata_taxi : valid_metadata taxi.
Proof.
  repeat split; simpl in *; intuition (subst; simpl; try lia; try reflexivity).
Defined.

Lemma X6_create_returns_on_valid_metadata_witness :
  exists fc, _create_feature_columns taxi = Ok fc.
Proof.
  apply (X6_create_returns_on_valid_metadata taxi). exact valid_metadata_taxi.
Defined.

(* ===================================================================== *)
(** ** The three fields [_extend_feature_columns] asks for by name *)
(* ===================================================================== *)

(** X7. [_extend_feature_columns] raises [KeyError('trip_miles')] on a
    dictionary without the name ['trip_miles'], whatever the flags and
    whatever else the dictionary holds: the look-up is the first thing it
    does. *)
Theorem X7_extend_without_trip_miles_raises_KeyError
    (feature_columns : dict tf.column) (args : Args) :
  get "trip_miles" feature_columns = None ->
  _extend_feature_columns feature_columns args = Raise (KeyError "trip_miles").
Proof.
  intros H. unfold _extend_feature_columns, getitem. now rewrite H.
Qed.

Lemma X7_extend_without_trip_miles_raises_KeyError_witness :
  _extend_feature_columns [("company", HashedCategoricalColumn "company" 1000)]
    (mkArgs true true true)
  = Raise (KeyError "trip_miles").
Proof.
  apply X7_extend_without_trip_miles_raises_KeyError. reflexivity.
Defined.

(** X8. [_extend_feature_columns] returns a list only on a dictionary
    that holds all three names ['trip_miles'], ['trip_seconds'] and
    ['company']: when one of them is missing it raises, under every
    setting of the flags. *)
Theorem X8_extend_needs_the_three_names (feature_columns : dict tf.column)
    (args : Args) :
  get "trip_miles" feature_columns = None
  \/ get "trip_seconds" feature_columns = None
  \/ get "company" feature_columns = None ->
  exists e, _extend_feature_columns feature_columns args = Raise e.
Proof.
  intros H.
  destruct (_extend_feature_columns feature_columns args) as [ext | e] eqn:E;
    [| eauto].
  apply _extend_feature_columns_Ok in E
    as (tm & ts & co & cs & Htm & _ & Hts & _ & Hco & _).
  destruct H as [H | [H | H]]; congruence.
Qed.

Lemma X8_extend_needs_the_three_names_witness :
  exists e,
    _extend_feature_columns
      [("trip_miles", NumericColumn "trip_miles" None);
       ("trip_seconds", NumericColumn "trip_seconds" None)]
      (mkArgs false false false)
    = Raise e.
Proof.
  apply X8_extend_needs_the_three_names. right. right. reflexivity.
Defined.

Lemma column_embeds_below_2_52 args k c :
  base_column k c ->
  (embed_categorical_columns args = true ->
   identity_or_vocabulary c = true ->
   vocabulary_or_bucket_size c < 2 ^ 52) ->
  column_embeds args c.
Proof.
  intros Hk Hlt.
  destruct Hk as [nf | n Hn | l Hl | n Hn];
    cbn [column_embeds vocabulary_or_bucket_size] in *; try exact I.
  - intros He. apply (embeds_exact_range args n); [| exact He].
    specialize (Hlt He eq_refl). lia.
  - intros He. apply (embeds_exact_range args (Z.of_nat (length l)));
      [| exact He].
    specialize (Hlt He eq_refl). lia.
Qed.

Lemma base_dict_embeds fc args :
  base_dict fc ->
  (embed_categorical_columns args = true ->
   forall name c, get name fc = Some c ->
                  identity_or_vocabulary c = true ->
                  vocabulary_or_bucket_size c < 2 ^ 52) ->
  Forall (column_embeds args) (values fc).
Proof.
  intros [Hnd Hb] Hlt. apply Forall_forall. intros c Hc.
  unfold values in Hc. apply in_map_iff in Hc as ([k c'] & <- & Hin).
  apply (column_embeds_below_2_52 args k); [now apply Hb |].
  intros He. apply (Hlt He k). now apply In_get.
Qed.

(** X9. On the dictionary built from the metadata, with numeric columns
    under ['trip_miles'] and ['trip_seconds'] and some column under
    ['company'], and with the bucket count of every identity field and
    the size of every vocabulary below [2^52] when
    [embed_categorical_columns] is on,
    [_extend_feature_columns] returns: first the two bucketized columns,
    the cross and the embedding of ['company'], then, for each column in
    dictionary order, its embedding and its indicator as far as the flags
    ask for them, followed by the column itself when it is numeric or
    [use_wide_columns] is set. *)
Theorem X9_extend_returns_fixed_columns_then_one_group_per_column
    (md : metadata.t) (fc : dict tf.column) (args : Args)
    (trip_miles trip_seconds company : tf.column) :
  _create_feature_columns md = Ok fc ->
  (embed_categorical_columns args = true ->
   forall name c, get name fc = Some c ->
                  identity_or_vocabulary c = true ->
                  vocabulary_or_bucket_size c < 2 ^ 52) ->
  get "trip_miles" fc = Some trip_miles -> isNumericColumn trip_miles = true ->
  get "trip_seconds" fc = Some trip_seconds ->
  isNumericColumn trip_seconds = true ->
  get "company" fc = Some company ->
  _extend_feature_columns fc args
  = Ok (fixed_columns trip_miles trip_seconds company
        ++ flat_map (fun c => derived_part args c ++ pass_through args c)
             (values fc)).
Proof.
  intros H Hlt.
  apply _create_feature_columns_base in H.
  apply _extend_feature_columns_base; [exact (proj1 H) |].
  now apply base_dict_embeds.
Qed.

Lemma sizes_taxi_below_2_52 (name : string) (c : tf.column) :
  get name taxi_feature_columns = Some c ->
  vocabulary_or_bucket_size c < 2 ^ 52.
Proof.
  simpl.
  repeat match goal with
    | |- context [String.eqb ?a ?b] => destruct (String.eqb a b)
    end;
    intros H; try discriminate; injection H as <-; reflexivity.
Defined.

Lemma X9_extend_returns_fixed_columns_then_one_group_per_column_witness :
  _extend_feature_columns taxi_feature_columns (mkArgs true true false)
  = Ok (fixed_columns (NumericColumn "trip_miles" None)
          (NumericColumn "trip_seconds" None)
          (HashedCategoricalColumn "company" 1000)
        ++ flat_map (fun c => derived_part (mkArgs true true false) c
                              ++ pass_through (mkArgs true true false) c)
             (values taxi_feature_columns)).
Proof.
  apply (X9_extend_returns_fixed_columns_then_one_group_per_column taxi);
    try reflexivity.
  intros _ name c Hget _. exact (sizes_taxi_below_2_52 name c Hget).
Defined.

(* ===================================================================== *)
(** ** What the indicator and the wide flag add to the extended list *)
(* ===================================================================== *)

Lemma Permutation_flat_map_pointwise {A B : Type} (f g : A -> list B)
    (l : list A) :
  (forall x, Permutation (f x) (g x)) ->
  Permutation (flat_map f l) (flat_map g l).
Proof.
  intros H. induction l as [| a l IH]; simpl; [constructor |].
  now apply Permutation_app.
Qed.

Lemma contribution_with_indicator args c :
  Permutation
    (contribution (with_use_indicator_columns true args) c)
    ((if is_categorical_base c then [IndicatorColumn c] else [])
     ++ contribution (with_use_indicator_columns false args) c).
Proof.
  unfold contribution, derived_part, embedding_part, loop_embedding,
    indicator_part, pass_through.
  destruct c; simpl; try apply Permutation_refl;
    destruct (embed_categorical_columns args); simpl;
    try apply Permutation_refl;
    destruct (math.ceil_sqrt _); simpl;
    try apply Permutation_refl; apply perm_swap.
Qed.

Lemma contribution_with_wide args c :
  contribution (with_use_wide_columns true args) c
  = contribution (with_use_wide_columns false args) c
    ++ (if isNumericColumn c then [] else [c]).
Proof.
  unfold contribution, pass_through. simpl.
  rewrite orb_true_r, orb_false_r, <- app_assoc.
  now destruct (isNumericColumn c).
Qed.

Lemma flat_map_not_numeric (l : list tf.column) :
  filter (fun c => negb (isNumericColumn c)) l
  = flat_map (fun c => if isNumericColumn c then [] else [c]) l.
Proof.
  induction l as [| c l IH]; simpl; [reflexivity |].
  rewrite IH. now destruct (isNumericColumn c).
Qed.

Lemma filter_not_numeric_base fc :
  base_dict fc ->
  filter (fun c => negb (isNumericColumn c)) (values fc)
  = filter is_categorical_base (values fc).
Proof.
  intros Hb. apply filter_ext_in. intros c Hc.
  destruct (base_dict_values fc c Hb Hc) as (k & Hk).
  now destruct Hk.
Qed.

(** X10. With [use_indicator_columns] on, the list returned by
    [_extend_feature_columns] holds, beyond what it holds with the flag
    off, exactly one indicator for each identity, each vocabulary and each
    hash bucket field; nothing else changes. *)
Theorem X10_indicator_flag_adds_one_indicator_per_categorical_field
    (md : metadata.t) (args : Args) (fc : dict tf.column)
    (ext0 ext1 : list tf.column) :
  _create_feature_columns md = Ok fc ->
  _extend_feature_columns fc (with_use_indicator_columns false args) = Ok ext0 ->
  _extend_feature_columns fc (with_use_indicator_columns true args) = Ok ext1 ->
  Permutation ext1
    (ext0 ++ map IndicatorColumn (filter is_categorical_base (values fc))).
Proof.
  intros Hfc H0 H1.
  pose proof (_create_feature_columns_base md fc Hfc) as Hb.
  destruct (_extend_feature_columns_any_args fc _
              (with_use_indicator_columns true args) ext0 Hb H0 (fun e => e))
    as (tm & ts & co & Htm & Hts & Hco & -> & H1').
  assert (ext1 = fixed_columns tm ts co
                 ++ flat_map
                      (contribution (with_use_indicator_columns true args))
                      (values fc)) as -> by congruence.
  rewrite <- app_assoc. apply Permutation_app_head.
  rewrite <- flat_map_if_map.
  rewrite (Permutation_flat_map_pointwise _ _ _
             (contribution_with_indicator args)).
  apply (Permutation_flat_map_app
           (fun c => if is_categorical_base c then [IndicatorColumn c] else [])).
Qed.

Lemma X10_indicator_flag_adds_one_indicator_per_categorical_field_witness :
  Permutation
    (fixed_columns (NumericColumn "trip_miles" None)
       (NumericColumn "trip_seconds" None)
       (HashedCategoricalColumn "company" 1000)
     ++ flat_map (contribution (mkArgs false true false))
          (values taxi_feature_columns))
    ((fixed_columns (NumericColumn "trip_miles" None)
        (NumericColumn "trip_seconds" None)
        (HashedCategoricalColumn "company" 1000)
      ++ flat_map (contribution (mkArgs false false false))
           (values taxi_feature_columns))
     ++ map IndicatorColumn
          (filter is_categorical_base (values taxi_feature_columns))).
Proof.
  apply (X10_indicator_flag_adds_one_indicator_per_categorical_field taxi
           (mkArgs false false false) taxi_feature_columns);
    reflexivity.
Defined.

(** X11. With [use_wide_columns] on, the list returned by
    [_extend_feature_columns] holds, beyond what it holds with the flag
    off, exactly the identity, vocabulary and hash bucket columns of the
    dictionary, each once; nothing else changes. *)
Theorem X11_wide_flag_adds_the_categorical_columns (md : metadata.t)
    (args : Args) (fc : dict tf.column) (ext0 ext1 : list tf.column) :
  _create_feature_columns md = Ok fc ->
  _extend_feature_columns fc (with_use_wide_columns false args) = Ok ext0 ->
  _extend_feature_columns fc (with_use_wide_columns true args) = Ok ext1 ->
  Permutation ext1 (ext0 ++ filter is_categorical_base (values fc)).
Proof.
  intros Hfc H0 H1.
  pose proof (_create_feature_columns_base md fc Hfc) as Hb.
  destruct (_extend_feature_columns_any_args fc _
              (with_use_wide_columns true args) ext0 Hb H0 (fun e => e))
    as (tm & ts & co & Htm & Hts & Hco & -> & H1').
  assert (ext1 = fixed_columns tm ts co
                 ++ flat_map (contribution (with_use_wide_columns true args))
                      (values fc)) as -> by congruence.
  rewrite <- app_assoc. apply Permutation_app_head.
  rewrite <- (filter_not_numeric_base fc Hb).
  rewrite (flat_map_ext_In _ _ _ (fun c _ => contribution_with_wide args c)).
  rewrite (Permutation_flat_map_app
             (contribution (with_use_wide_columns false args))).
  rewrite <- flat_map_not_numeric. apply Permutation_app_comm.
Qed.

Lemma X11_wide_flag_adds_the_categorical_columns_witness :
  Permutation
    (fixed_columns (NumericColumn "trip_miles" None)
       (NumericColumn "trip_seconds" None)
       (HashedCategoricalColumn "company" 1000)
     ++ flat_map (contribution (mkArgs true false true))
          (values taxi_feature_columns))
    ((fixed_columns (NumericColumn "trip_miles" None)
        (NumericColumn "trip_seconds" None)
        (HashedCategoricalColumn "company" 1000)
      ++ flat_map (contribution (mkArgs true false false))
           (values taxi_feature_columns))
     ++ filter is_categorical_base (values taxi_feature_columns)).
Proof.
  apply (X11_wide_flag_adds_the_categorical_columns taxi
           (mkArgs true false false) taxi_feature_columns);
    reflexivity.
Defined.

(** X12. When ['company'] is an identity or a vocabulary field and
    [embed_categorical_columns] is on, the deep list holds two embeddings
    of the ['company'] column: the one of dimension 10 built before the
    loop, at its head, and further on the one built in the loop, whose
    dimension is the value [math.ceil(math.sqrt(s))] returned for the
    bucket count or vocabulary size [s] of the field. *)
Theorem X12_company_is_embedded_twice (md : metadata.t) (args : Args)
    (fc : dict tf.column) (company : tf.column) (wide deep : list tf.column) :
  _create_feature_columns md = Ok fc ->
  get "company" fc = Some company ->
  identity_or_vocabulary company = true ->
  embed_categorical_columns args = true ->
  create_wide_and_deep_columns md args = Ok (wide, deep) ->
  exists dimension between after,
    math.ceil_sqrt (vocabulary_or_bucket_size company) = Ok dimension /\
    deep = EmbeddingColumn company 10
           :: between ++ EmbeddingColumn company dimension :: after.
Proof.
  intros Hfc Hco Hiv Hemb H.
  pose proof (create_wide_and_deep_columns_embeds md args fc wide deep Hfc H)
    as Hall_embed.
  destruct (create_wide_and_deep_columns_shape _ _ _ _ H)
    as (fc' & tm & ts & co & Hfc' & Hb & Htm & Hts & Hco' & Hall).
  assert (fc' = fc) as -> by congruence.
  assert (co = company) as -> by congruence.
  assert (deep = deep_of fc company args) as ->
    by (rewrite (Hall args (fun e => e)) in H; congruence).
  assert (In company (values fc)) as Hin.
  { apply get_In in Hco. apply (in_map snd) in Hco. exact Hco. }
  pose proof (proj1 (Forall_forall _ _) Hall_embed company Hin) as Hc.
  destruct (column_embeds_size _ company Hiv Hc Hemb) as (d & Hd & _).
  apply in_split in Hin as (l1 & l2 & Hsplit).
  exists d. unfold deep_of. rewrite Hsplit, flat_map_app. simpl.
  assert (derived_part args company
          = EmbeddingColumn company d :: indicator_part args company) as ->.
  { unfold derived_part, embedding_part, loop_embedding. rewrite Hemb.
    destruct company; try discriminate; simpl in Hd; rewrite Hd;
      reflexivity. }
  simpl. eexists _, _. split; [exact Hd | reflexivity].
Qed.

Lemma X12_company_is_embedded_twice_witness :
  exists dimension between after,
    math.ceil_sqrt
      (vocabulary_or_bucket_size (IdentityCategoricalColumn "company" 90))
    = Ok dimension /\
    deep_of [("trip_miles", NumericColumn "trip_miles" None);
             ("trip_seconds", NumericColumn "trip_seconds" None);
             ("company", IdentityCategoricalColumn "company" 90)]
      (IdentityCategoricalColumn "company" 90) (mkArgs true false false)
    = EmbeddingColumn (IdentityCategoricalColumn "company" 90) 10
      :: between
         ++ EmbeddingColumn (IdentityCategoricalColumn "company" 90) dimension
         :: after.
Proof.
  apply (X12_company_is_embedded_twice
           {| metadata.NUMERIC_FEATURE_NAMES_WITH_STATS :=
                [("trip_miles", []); ("trip_seconds", [])];
              metadata.CATEGORICAL_FEATURE_NAMES_WITH_IDENTITY := [("company", 90)];
              metadata.CATEGORICAL_FEATURE_NAMES_WITH_VOCABULARY := [];
              metadata.CATEGORICAL_FEATURE_NAMES_WITH_HASH_BUCKET := [] |}
           (mkArgs true false false)
           [("trip_miles", NumericColumn "trip_miles" None);
            ("trip_seconds", NumericColumn "trip_seconds" None);
            ("company", IdentityCategoricalColumn "company" 90)]
           (IdentityCategoricalColumn "company" 90)
           (wide_of [("trip_miles", NumericColumn "trip_miles" None);
                     ("trip_seconds", NumericColumn "trip_seconds" None);
                     ("company", IdentityCategoricalColumn "company" 90)]
              (NumericColumn "trip_miles" None)
              (NumericColumn "trip_seconds" None) (mkArgs true false false)));
    reflexivity.
Defined.

(* ===================================================================== *)
(** ** Splitting a list into sparse and dense columns *)
(* ===================================================================== *)

(** X13. [_get_sparse_and_dense_columns] loses the hash bucket columns
    and nothing else: the sparse list, the dense list and the hash bucket
    columns of the input together hold every column of the input exactly
    as often as the input does. *)
Theorem X13_split_loses_exactly_the_hashed_columns
    (feature_columns : list tf.column) :
  Permutation
    (fst (_get_sparse_and_dense_columns feature_columns)
     ++ snd (_get_sparse_and_dense_columns feature_columns)
     ++ filter isHashedCategoricalColumn feature_columns)
    feature_columns.
Proof.
  unfold _get_sparse_and_dense_columns. simpl.
  induction feature_columns as [| c l IH]; simpl; [constructor |].
  destruct c; simpl;
    try (apply perm_skip; exact IH);
    try (rewrite <- Permutation_middle; apply perm_skip; exact IH).
  rewrite app_assoc, <- Permutation_middle, <- app_assoc.
  apply perm_skip. exact IH.
Qed.

(** X14. No column is in both lists returned by
    [_get_sparse_and_dense_columns]: a column of the sparse list is not in
    the dense list. *)
Theorem X14_sparse_and_dense_lists_are_disjoint
    (feature_columns : list tf.column) (c : tf.column) :
  In c (fst (_get_sparse_and_dense_columns feature_columns)) ->
  ~ In c (snd (_get_sparse_and_dense_columns feature_columns)).
Proof.
  unfold _get_sparse_and_dense_columns. simpl. intros Hs Hd.
  apply filter_In in Hs as [_ Hs]. apply filter_In in Hd as [_ Hd].
  exact (sparse_dense_disjoint c Hs Hd).
Qed.

Lemma X14_sparse_and_dense_lists_are_disjoint_witness :
  ~ In (IdentityCategoricalColumn "trip_start_hour" 24)
      (snd (_get_sparse_and_dense_columns
              [NumericColumn "trip_miles" None;
               IdentityCategoricalColumn "trip_start_hour" 24])).
Proof.
  apply (X14_sparse_and_dense_lists_are_disjoint
           [NumericColumn "trip_miles" None;
            IdentityCategoricalColumn "trip_start_hour" 24]).
  simpl. now left.
Defined.

(** X15. Splitting again changes nothing: the sparse list splits into
    itself and an empty dense list, the dense list into an empty sparse
    list and itself. *)
Theorem X15_splitting_the_outputs_again (feature_columns : list tf.column) :
  let sparse := fst (_get_sparse_and_dense_columns feature_columns) in
  let dense := snd (_get_sparse_and_dense_columns feature_columns) in
  _get_sparse_and_dense_columns sparse = (sparse, [])
  /\ _get_sparse_and_dense_columns dense = ([], dense).
Proof.
  unfold _get_sparse_and_dense_columns. simpl.
  induction feature_columns as [| c l [IH1 IH2]]; simpl; [auto |].
  injection IH1 as IHs IHd. injection IH2 as IHs' IHd'.
  destruct c; simpl; rewrite ?IHs, ?IHd, ?IHs', ?IHd'; auto.
Qed.

(* ===================================================================== *)
(** ** [create_wide_and_deep_columns] under changing flags *)
(* ===================================================================== *)

(** X16. Only switching [embed_categorical_columns] on can make
    [create_wide_and_deep_columns] raise: if it returns for one setting of
    the parameters, it returns on the same metadata for every setting
    that has [embed_categorical_columns] on only if the first one has. *)
Theorem X16_only_the_embed_flag_can_make_create_raise (md : metadata.t)
    (args args' : Args) (wide deep : list tf.column) :
  create_wide_and_deep_columns md args = Ok (wide, deep) ->
  (embed_categorical_columns args' = true ->
   embed_categorical_columns args = true) ->
  exists wide' deep',
    create_wide_and_deep_columns md args' = Ok (wide', deep').
Proof.
  intros H Himp.
  destruct (create_wide_and_deep_columns_shape _ _ _ _ H)
    as (fc & tm & ts & co & _ & _ & _ & _ & _ & Hall).
  eexists _, _. apply Hall. exact Himp.
Qed.

Lemma X16_only_the_embed_flag_can_make_create_raise_witness :
  exists wide' deep',
    create_wide_and_deep_columns taxi (mkArgs false true true)
    = Ok (wide', deep').
Proof.
  apply (X16_only_the_embed_flag_can_make_create_raise taxi
           (mkArgs true false false) (mkArgs false true true)
           (wide_of taxi_feature_columns (NumericColumn "trip_miles" None)
              (NumericColumn "trip_seconds" None) (mkArgs true false false))
           (deep_of taxi_feature_columns
              (HashedCategoricalColumn "company" 1000)
              (mkArgs true false false))).
  - reflexivity.
  - intros He. discriminate He.
Defined.

(** X17. The wide list depends on [use_wide_columns] only: two calls on
    the same metadata that return and agree on [use_wide_columns] return
    the same wide list, whatever [embed_categorical_columns] and
    [use_indicator_columns] are. *)
Theorem X17_wide_list_ignores_embed_and_indicator_flags (md : metadata.t)
    (args args' : Args) (wide deep wide' deep' : list tf.column) :
  create_wide_and_deep_columns md args = Ok (wide, deep) ->
  create_wide_and_deep_columns md args' = Ok (wide', deep') ->
  use_wide_columns args' = use_wide_columns args ->
  wide' = wide.
Proof.
  intros H H' Hw.
  destruct (create_wide_and_deep_columns_shape _ _ _ _ H)
    as (fc & tm & ts & co & Hfc & _ & Htm & Hts & _ & Hall).
  destruct (create_wide_and_deep_columns_shape _ _ _ _ H')
    as (fc' & tm' & ts' & co' & Hfc' & _ & Htm' & Hts' & _ & Hall').
  assert (fc' = fc) as -> by congruence.
  assert (tm' = tm) as -> by congruence.
  assert (ts' = ts) as -> by congruence.
  assert (wide = wide_of fc tm ts args) as ->
    by (rewrite (Hall args (fun e => e)) in H; congruence).
  assert (wide' = wide_of fc tm ts args') as ->
    by (rewrite (Hall' args' (fun e => e)) in H'; congruence).
  unfold wide_of. now rewrite Hw.
Qed.

Lemma X17_wide_list_ignores_embed_and_indicator_flags_witness :
  wide_of taxi_feature_columns (NumericColumn "trip_miles" None)
    (NumericColumn "trip_seconds" None) (mkArgs true true true)
  = wide_of taxi_feature_columns (NumericColumn "trip_miles" None)
      (NumericColumn "trip_seconds" None) (mkArgs false false true).
Proof.
  apply (X17_wide_list_ignores_embed_and_indicator_flags taxi
           (mkArgs false false true) (mkArgs true true true)
           _
           (deep_of taxi_feature_columns
              (HashedCategoricalColumn "company" 1000)
              (mkArgs false false true))
           _
           (deep_of taxi_feature_columns
              (HashedCategoricalColumn "company" 1000)
              (mkArgs true true true)));
    reflexivity.
Defined.

Lemma _create_feature_columns_sizes md fc :
  _create_feature_columns md = Ok fc ->
  sizes_below_2_52 md ->
  forall name c, get name fc = Some c ->
                 identity_or_vocabulary c = true ->
                 vocabulary_or_bucket_size c < 2 ^ 52.
Proof.
  intros Hfc [Hid Hvoc] name c Hget Hiv.
  destruct (_create_feature_columns_lookup md fc Hfc name)
    as (Hh & Hv & Hi & Hn & Hnone).
  destruct (in_dec string_dec name
              (keys (metadata.CATEGORICAL_FEATURE_NAMES_WITH_HASH_BUCKET md)))
    as [Ih | Ih].
  { destruct (Hh Ih) as (n & _ & Hget').
    rewrite Hget in Hget'. injection Hget' as ->. discriminate Hiv. }
  destruct (in_dec string_dec name
              (keys (metadata.CATEGORICAL_FEATURE_NAMES_WITH_VOCABULARY md)))
    as [Iv | Iv].
  { destruct (Hv Ih Iv) as (l & Hl & Hget').
    rewrite Hget in Hget'. injection Hget' as ->.
    cbn [vocabulary_or_bucket_size]. apply Hvoc.
    apply get_In in Hl. apply (in_map snd) in Hl. exact Hl. }
  destruct (in_dec string_dec name
              (keys (metadata.CATEGORICAL_FEATURE_NAMES_WITH_IDENTITY md)))
    as [Ii | Ii].
  { destruct (Hi Ih Iv Ii) as (n & Hn' & Hget').
    rewrite Hget in Hget'. injection Hget' as ->.
    cbn [vocabulary_or_bucket_size]. apply Hid.
    apply get_In in Hn'. apply (in_map snd) in Hn'. exact Hn'. }
  destruct (in_dec string_dec name
              (keys (metadata.NUMERIC_FEATURE_NAMES_WITH_STATS md)))
    as [In_ | In_].
  - pose proof (Hn Ih Iv Ii In_) as Hget'.
    rewrite Hget in Hget'. injection Hget' as ->. discriminate Hiv.
  - pose proof (Hnone Ih Iv Ii In_) as Hget'. congruence.
Qed.

(** X18. [create_wide_and_deep_columns] returns, under every setting of
    the flags, when the metadata is valid, every identity bucket count
    and vocabulary size is below [2^52], ['trip_miles'] and
    ['trip_seconds'] are listed as numeric fields and in no other table,
    and ['company'] is listed in some table. *)
Theorem X18_create_returns_when_the_three_fields_are_there (md : metadata.t)
    (args : Args) :
  valid_metadata md ->
  sizes_below_2_52 md ->
  numeric_only md "trip_miles" ->
  numeric_only md "trip_seconds" ->
  In "company" (field_names md) ->
  exists wide deep, create_wide_and_deep_columns md args = Ok (wide, deep).
Proof.
  intros Hv Hsz (Mn & Mi & Mv & Mh) (Sn & Si & Sv & Sh) Hco.
  destruct (_create_feature_columns_returns md Hv) as (fc & Hfc).
  destruct (_create_feature_columns_lookup md fc Hfc "trip_miles")
    as (_ & _ & _ & Hm & _).
  destruct (_create_feature_columns_lookup md fc Hfc "trip_seconds")
    as (_ & _ & _ & Hs & _).
  apply (_create_feature_columns_keys md fc "company" Hfc) in Hco.
  apply In_keys_get in Hco as (co & Hget & _).
  eexists _, _.
  eapply create_wide_and_deep_columns_returns;
    [exact Hfc | | apply Hm; assumption | reflexivity
     | apply Hs; assumption | reflexivity | exact Hget].
  apply base_dict_embeds; [now apply _create_feature_columns_base in Hfc |].
  intros _. now apply (_create_feature_columns_sizes md fc).
Qed.

Lemma numeric_only_taxi_trip_miles : numeric_only taxi "trip_miles".
Proof.
  unfold numeric_only. simpl. intuition discriminate.
Defined.

Lemma numeric_only_taxi_trip_seconds : numeric_only taxi "trip_seconds".
Proof.
  unfold numeric_only. simpl. intuition discriminate.
Defined.

Lemma sizes_below_2_52_taxi : sizes_below_2_52 taxi.
Proof.
  split; simpl; intros x [<- | []]; reflexivity.
Defined.

Lemma X18_create_returns_when_the_three_fields_are_there_witness :
  exists wide deep,
    create_wide_and_deep_columns taxi (mkArgs true false true)
    = Ok (wide, deep).
Proof.
  apply X18_create_returns_when_the_three_fields_are_there.
  - exact valid_metadata_taxi.
  - exact sizes_below_2_52_taxi.
  - exact numeric_only_taxi_trip_miles.
  - exact numeric_only_taxi_trip_seconds.
  - unfold field_names. simpl. auto 10.
Defined.

Lemma flat_map_numeric_only (args : Args) (l : list tf.column) :
  embed_categorical_columns args = false ->
  use_indicator_columns args = false ->
  flat_map (fun c => derived_part args c
                     ++ (if isNumericColumn c then [c] else [])) l
  = filter isNumericColumn l.
Proof.
  intros He Hi. induction l as [| c l IH]; simpl; [reflexivity |].
  rewrite IH. unfold derived_part, embedding_part, indicator_part.
  rewrite He, Hi. now destruct c.
Qed.

(** X19. With the three flags off, the wide list is the two bucketized
    columns and the cross, and the deep list is the embedding of
    ['company'] followed by the numeric columns in dictionary order. *)
Theorem X19_lists_with_all_flags_off (md : metadata.t) (args : Args)
    (wide deep : list tf.column) :
  embed_categorical_columns args = false ->
  use_indicator_columns args = false ->
  use_wide_columns args = false ->
  create_wide_and_deep_columns md args = Ok (wide, deep) ->
  exists fc trip_miles trip_seconds company,
    _create_feature_columns md = Ok fc /\
    get "trip_miles" fc = Some trip_miles /\
    get "trip_seconds" fc = Some trip_seconds /\
    get "company" fc = Some company /\
    wide = [BucketizedColumn trip_miles [5; 10; 15; 20; 25; 30; 35; 40; 45; 50];
            BucketizedColumn trip_seconds [900; 1800; 2700; 3600];
            CrossedColumn ["trip_miles"; "trip_seconds"] 10000] /\
    deep = EmbeddingColumn company 10 :: filter isNumericColumn (values fc).
Proof.
  intros He Hi Hw H.
  destruct (create_wide_and_deep_columns_shape _ _ _ _ H)
    as (fc & tm & ts & co & Hfc & _ & Htm & Hts & Hco & Hall).
  rewrite (Hall args (fun e => e)) in H.
  assert (wide = wide_of fc tm ts args) as -> by congruence.
  assert (deep = deep_of fc co args) as -> by congruence.
  exists fc, tm, ts, co. repeat (split; [assumption |]).
  unfold wide_of, deep_of. rewrite Hw, flat_map_numeric_only by assumption.
  split; reflexivity.
Qed.

Lemma X19_lists_with_all_flags_off_witness :
  exists fc trip_miles trip_seconds company,
    _create_feature_columns taxi = Ok fc /\
    get "trip_miles" fc = Some trip_miles /\
    get "trip_seconds" fc = Some trip_seconds /\
    get "company" fc = Some company /\
    wide_of taxi_feature_columns (NumericColumn "trip_miles" None)
      (NumericColumn "trip_seconds" None) (mkArgs false false false)
    = [BucketizedColumn trip_miles [5; 10; 15; 20; 25; 30; 35; 40; 45; 50];
       BucketizedColumn trip_seconds [900; 1800; 2700; 3600];
       CrossedColumn ["trip_miles"; "trip_seconds"] 10000] /\
    deep_of taxi_feature_columns (HashedCategoricalColumn "company" 1000)
      (mkArgs false false false)
    = EmbeddingColumn company 10 :: filter isNumericColumn (values fc).
Proof.
  apply (X19_lists_with_all_flags_off taxi (mkArgs false false false));
    reflexivity.
Defined.

(* ===================================================================== *)
(** ** Iteration order of the dictionary and duplicates in the wide list *)
(* ===================================================================== *)

Lemma store_loop_keys (mk : string -> result tf.column) (ks : list string) :
  forall fc0 fc1, for_each ks (store mk) fc0 = Ok fc1 ->
  keys fc1 = fold_left add_name ks (keys fc0).
Proof.
  induction ks as [| k ks IH]; simpl; intros fc0 fc1 H.
  - now inv_Ok H.
  - inv_bind H as fc' Hs. apply store_Ok in Hs as (c & _ & ->).
    rewrite (IH _ _ H), keys_setitem. reflexivity.
Qed.

(** X20. The dictionary returned by [_create_feature_columns] iterates
    over the field names in the order of their first listing, numeric
    table first, then identity, vocabulary and hash bucket: a name listed
    again in a later table keeps the place of its first listing. *)
Theorem X20_created_dictionary_keeps_first_listing_order (md : metadata.t)
    (fc : dict tf.column) :
  _create_feature_columns md = Ok fc ->
  keys fc = first_occurrences (field_names md).
Proof.
  intros H.
  apply _create_feature_columns_Ok in H as (fc1 & fc2 & fc3 & H1 & H2 & H3 & H4).
  apply store_loop_keys in H1, H2, H3, H4.
  unfold first_occurrences, field_names.
  rewrite !fold_left_app. simpl in H1. now rewrite <- H1, <- H2, <- H3.
Qed.

Lemma X20_created_dictionary_keeps_first_listing_order_witness :
  keys [("fare", HashedCategoricalColumn "fare" 10);
        ("tips", NumericColumn "tips" None)]
  = first_occurrences (field_names overlapping).
Proof.
  apply (X20_created_dictionary_keeps_first_listing_order overlapping).
  reflexivity.
Defined.

Lemma base_column_key k c : base_column k c -> column_key c = k.
Proof. now destruct 1. Qed.

Lemma NoDup_values_base fc : base_dict fc -> NoDup (values fc).
Proof.
  intros [Hnd Hb]. unfold values, keys in *.
  induction fc as [| [k c] fc IH]; simpl in *; [constructor |].
  inversion Hnd as [| ? ? Hk Hnd']; subst. constructor.
  - intros Hin. apply in_map_iff in Hin as ([k' c'] & Heq & Hin).
    simpl in Heq. subst c'. apply Hk.
    assert (k' = k) as <-.
    { rewrite <- (base_column_key k' c) by (apply Hb; now right).
      apply base_column_key. apply Hb. now left. }
    apply (in_map fst) in Hin. exact Hin.
  - apply IH; [exact Hnd' |]. intros k' c' Hin. apply Hb. now right.
Qed.

(** X21. The wide list returned by [create_wide_and_deep_columns] never
    holds a column twice. *)
Theorem X21_wide_list_has_no_duplicates (md : metadata.t) (args : Args)
    (wide deep : list tf.column) :
  create_wide_and_deep_columns md args = Ok (wide, deep) -> NoDup wide.
Proof.
  intros H.
  destruct (create_wide_and_deep_columns_shape _ _ _ _ H)
    as (fc & tm & ts & co & _ & Hb & _ & _ & _ & Hall).
  assert (wide = wide_of fc tm ts args) as ->
    by (rewrite (Hall args (fun e => e)) in H; congruence).
  unfold wide_of. apply NoDup_app.
  - repeat constructor; simpl; intuition discriminate.
  - destruct (use_wide_columns args); [| constructor].
    apply NoDup_filter. now apply NoDup_values_base.
  - intros c Hin Hin'.
    assert (identity_or_vocabulary c = true) as Hiv.
    { destruct (use_wide_columns args); [| contradiction].
      now apply filter_In in Hin' as [_ ?]. }
    simpl in Hin. destruct Hin as [<- | [<- | [<- | []]]]; discriminate.
Qed.

Lemma X21_wide_list_has_no_duplicates_witness :
  NoDup (wide_of taxi_feature_columns (NumericColumn "trip_miles" None)
           (NumericColumn "trip_seconds" None) (mkArgs true true true)).
Proof.
  apply (X21_wide_list_has_no_duplicates taxi (mkArgs true true true) _
           (deep_of taxi_feature_columns
              (HashedCategoricalColumn "company" 1000)
              (mkArgs true true true))).
  reflexivity.
Defined.

(* ===================================================================== *)
(** ** A bucket count too large for a double *)
(* ===================================================================== *)


